(** * AWS GameKit Unreal plugin: threaded latent actions and the
      session-manager library wrapper

    Shallow embedding of
      - [Public/Common/AwsGameKitBlueprintCommon.h]
        (the threaded-action bridge), and
      - [Public/SessionManager/AwsGameKitSessionManagerWrapper.h]
        (the function-pointer wrapper of the session-manager library),
    followed by the properties stated about them.

    Conventions.
      - Addresses are integers ([Z]); pointer arithmetic is exact, which is
        the behaviour of the source wherever it is defined.
      - The effects of a poll on the outside world (delegate invocations,
        stores through the captured output references, the call on the
        [FLatentResponse]) are returned as an ordered list of [Event]s;
        [replay] interprets the stores on a [Memory].
      - [check(e)] is the engine's assertion macro: fatal when [e] is false
        in a build with [DO_CHECK], compiled away otherwise. *)

From stdpp Require Import base option list gmap strings.
From Stdlib Require Import ZArith.

Local Open Scope Z_scope.

(* ================================================================== *)
(** * Part I: definitions *)
(* ================================================================== *)

(** ** Build configuration, engine types, declarations of other headers *)

(** [DO_CHECK]: whether [check] is compiled in. *)
Class BuildConfig := { DO_CHECK : bool }.

(** [FAwsGameKitOperationResult] (Models/AwsGameKitCommonModels.h) and
    [GameKit::GAMEKIT_SUCCESS] (Core/AwsGameKitErrors.h).  The code reads
    only the [Status] member and copies the value as a whole.
    [DefaultOperationResult] is the default-constructed value. *)
Class OperationResultModel := {
  FAwsGameKitOperationResult : Type;
  Status : FAwsGameKitOperationResult -> Z;
  GAMEKIT_SUCCESS : Z;
  DefaultOperationResult : FAwsGameKitOperationResult
}.

(** What the template relies on for its [ResultType] argument: a default
    constructor ([ResultType TempResults;], [ResultType EmptyResults;]) and
    a move assignment; [MovedFrom r] is the value [MoveTemp] leaves behind
    in the source object. *)
Class ResultModel (ResultType : Type) := {
  DefaultConstructed : ResultType;
  MovedFrom : ResultType -> ResultType
}.

(** [enum class EAwsGameKitSuccessOrFailureExecutionPin : uint8]. *)
Inductive EAwsGameKitSuccessOrFailureExecutionPin : Type :=
| OnSuccess
| OnFailure.

(** The members of [FLatentActionInfo] the code reads. *)
Record FLatentActionInfo : Type := {
  Linkage : Z;
  UUID : Z;
  ExecutionFunction : string;
  CallbackTarget : Z
}.

(** What the reflection calls of [InternalAwsGameKitThreadedActionSafeOutputRef]
    return for a latent-info: the persistent uber-graph frame of the callback
    target (a pointer, [0] when null) and the structure size of the
    uber-graph function (an [int32]). *)
Class BlueprintVM := {
  GetPersistentUberGraphFrame : FLatentActionInfo -> Z;
  GetStructureSize : FLatentActionInfo -> Z
}.

(** [TFuture<void>]: default-constructed (invalid), or the handle returned
    by [Async], whose shared state is complete or not. *)
Inductive TFuture : Type :=
| InvalidFuture
| Future (complete : bool).

Definition IsValid (f : TFuture) : bool :=
  match f with InvalidFuture => false | Future _ => true end.

(** [TFuture::IsReady] answers [false] on an invalid handle. *)
Definition IsReady (f : TFuture) : bool :=
  match f with InvalidFuture => false | Future c => c end.

(** ** AwsGameKitSessionManagerWrapper *)

(** Target platforms, and the platform macros the header tests: the engine
    defines exactly one of them as 1. *)
Inductive Platform : Type :=
| Windows | Mac | Linux | IOS | Android.

Definition PLATFORM_WINDOWS (p : Platform) : bool :=
  match p with Windows => true | _ => false end.
Definition PLATFORM_MAC (p : Platform) : bool :=
  match p with Mac => true | _ => false end.

Definition getLibraryFilename (p : Platform) : string :=
  if PLATFORM_WINDOWS p then "aws-gamekit-authentication"
  else if PLATFORM_MAC p then "libaws-gamekit-authentication"
  else "".

(** The character ['.'], which starts a file extension. *)
Definition dot : Ascii.ascii := Ascii.ascii_of_nat 46.

Fixpoint has_dot (s : string) : bool :=
  match s with
  | EmptyString => false
  | String c s' => if Ascii.eqb c dot then true else has_dot s'
  end.

(** ** Fatal assertions *)

(** A call returns ([Ok]), dies on an assertion ([CheckFailed]), or does
    something the language leaves undefined ([Undefined]). *)
Inductive Checked (A : Type) : Type :=
| Ok (a : A)
| CheckFailed
| Undefined.
Arguments Ok {A} a.
Arguments CheckFailed {A}.
Arguments Undefined {A}.

Global Instance Checked_ret : MRet Checked := fun _ a => Ok a.
Global Instance Checked_bind : MBind Checked := fun _ _ k c =>
  match c with Ok a => k a | CheckFailed => CheckFailed | Undefined => Undefined end.

Definition check `{BuildConfig} (e : bool) : Checked unit :=
  if DO_CHECK && negb e then CheckFailed else Ok tt.

(** ** InternalAwsGameKitThreadedActionSafeOutputRef *)

Definition ExtremelyLargeBPFrameSize : Z := 0x10000000.
Definition NearbyStackAddressLimit : Z := 16384.

(** [(size_t)(p - q)] on a 64-bit target. *)
Definition size_t_of_ptrdiff (d : Z) : Z := d mod 2 ^ 64.

(** [OutRef] is the address [&OutRef]; [stackobj] the address of the local
    [stackobj] of this call; [StaticJunkVarForIgnoredOutput] the address of
    the function-local static of this instantiation.  The result is the
    address the returned reference designates. *)
Definition InternalAwsGameKitThreadedActionSafeOutputRef
    `{BuildConfig} `{BlueprintVM}
    (StaticJunkVarForIgnoredOutput stackobj : Z)
    (LatentInfo : FLatentActionInfo) (OutRef : Z) : Checked Z :=
  let PersistentFrame := GetPersistentUberGraphFrame LatentInfo in
  let PersistentFrameSize := GetStructureSize LatentInfo in
  _ ← check (negb (PersistentFrame =? 0) && (0 <? PersistentFrameSize)
             && (PersistentFrameSize <? ExtremelyLargeBPFrameSize));
  if (PersistentFrame <=? OutRef) && (OutRef <? PersistentFrame + PersistentFrameSize)
  then Ok OutRef
  else
    _ ← check (size_t_of_ptrdiff (OutRef - stackobj) <? NearbyStackAddressLimit);
    Ok StaticJunkVarForIgnoredOutput.

(** Addresses of the three static junk variables (one per instantiation of
    the template: pin, result, status) and of the local [stackobj]. *)
Record StaticStorage : Type := {
  JunkSuccessOrFailure : Z;
  JunkResults : Z;
  JunkStatus : Z;
  StackObj : Z
}.

(** ** A concrete configuration, on which the statements below are tried *)

Definition sample_build : BuildConfig := {| DO_CHECK := true |}.

Definition sample_operation_results : OperationResultModel :=
  {| FAwsGameKitOperationResult := Z * string;
     Status := fst;
     GAMEKIT_SUCCESS := 0;
     DefaultOperationResult := (0, EmptyString) |}.

(** A persistent frame of 256 bytes at address 4096. *)
Definition sample_vm : BlueprintVM :=
  {| GetPersistentUberGraphFrame := fun _ => 4096;
     GetStructureSize := fun _ => 256 |}.

(** Results that are arrays of integers; a moved-from array is empty. *)
Definition sample_result_model : ResultModel (list Z) :=
  {| DefaultConstructed := [];
     MovedFrom := fun _ => [] |}.

Definition sample_storage : StaticStorage :=
  {| JunkSuccessOrFailure := 9000000;
     JunkResults := 9000016;
     JunkStatus := 9000064;
     StackObj := 7000000 |}.

Definition sample_info : FLatentActionInfo :=
  {| Linkage := 3; UUID := 17;
     ExecutionFunction := "ExecuteUbergraph_Login"; CallbackTarget := 512 |}.

(** ** The action state shared with the worker, and the action *)

Section ThreadedAction.

Context `{BuildConfig} `{OperationResultModel} `{BlueprintVM}.
Context {RequestType ResultType : Type} `{ResultModel ResultType}.

(** [TAwsGameKitInternalActionState<ResultType>]; the [TQueue] is the list
    of its elements, head first, and the [TOptional] an [option]. *)
Record TAwsGameKitInternalActionState : Type := {
  Err : FAwsGameKitOperationResult;
  Results : ResultType;
  PartialResultsQueue : option (list ResultType)
}.

(** The [PartialResultsDelegateType] argument: [FNoopStruct], or a delegate
    type, of which the code asks [IsBound()] and calls [Execute]. *)
Inductive PartialResultsDelegateType : Type :=
| FNoopStruct
| Delegate (bound : bool).

Definition IsBound (d : PartialResultsDelegateType) : bool :=
  match d with FNoopStruct => false | Delegate b => b end.

(** [TAwsGameKitInternalThreadedAction]; the three output references are
    the addresses they designate.  [ThreadedState] is the one heap object
    both the action and the worker lambda hold. *)
Record TAwsGameKitInternalThreadedAction : Type := {
  ThreadedState : TAwsGameKitInternalActionState;
  LatentInfo : FLatentActionInfo;
  InRequest : RequestType;
  OutSuccessOrFailure : Z;
  OutResults : Z;
  OutStatus : Z;
  PartialResultsDelegate : PartialResultsDelegateType;
  ThreadedResult : TFuture
}.

(** Effects of the action on the outside world, in program order. *)
Inductive Event : Type :=
| Execute (req : RequestType) (r : ResultType) (bFinal : bool)
| StoreResults (ref : Z) (v : ResultType)
| StoreStatus (ref : Z) (v : FAwsGameKitOperationResult)
| StoreSuccessOrFailure (ref : Z) (v : EAwsGameKitSuccessOrFailureExecutionPin)
| FinishAndTriggerIf (cond : bool) (fn : string) (linkage : Z) (target : Z).

(** Memory holding the variables output references may designate, one
    store per type.  A cell stands for the object that starts at its
    address; [writes_byte] gives the bytes a store covers. *)
Record Memory : Type := {
  PinCells : gmap Z EAwsGameKitSuccessOrFailureExecutionPin;
  ResultCells : gmap Z ResultType;
  StatusCells : gmap Z FAwsGameKitOperationResult
}.

Definition apply_event (m : Memory) (e : Event) : Memory :=
  match e with
  | StoreResults ref v =>
      {| PinCells := PinCells m; ResultCells := <[ref := v]> (ResultCells m);
         StatusCells := StatusCells m |}
  | StoreStatus ref v =>
      {| PinCells := PinCells m; ResultCells := ResultCells m;
         StatusCells := <[ref := v]> (StatusCells m) |}
  | StoreSuccessOrFailure ref v =>
      {| PinCells := <[ref := v]> (PinCells m); ResultCells := ResultCells m;
         StatusCells := StatusCells m |}
  | Execute _ _ _ | FinishAndTriggerIf _ _ _ _ => m
  end.

Definition replay (evs : list Event) (m : Memory) : Memory :=
  foldl apply_event m evs.

(** Field updates. *)
Definition with_queue (q : option (list ResultType))
    (s : TAwsGameKitInternalActionState) : TAwsGameKitInternalActionState :=
  {| Err := Err s; Results := Results s; PartialResultsQueue := q |}.

Definition with_results (r : ResultType)
    (s : TAwsGameKitInternalActionState) : TAwsGameKitInternalActionState :=
  {| Err := Err s; Results := r; PartialResultsQueue := PartialResultsQueue s |}.

Definition with_err (e : FAwsGameKitOperationResult)
    (s : TAwsGameKitInternalActionState) : TAwsGameKitInternalActionState :=
  {| Err := e; Results := Results s; PartialResultsQueue := PartialResultsQueue s |}.

Definition with_state (s : TAwsGameKitInternalActionState)
    (a : TAwsGameKitInternalThreadedAction) : TAwsGameKitInternalThreadedAction :=
  {| ThreadedState := s; LatentInfo := LatentInfo a; InRequest := InRequest a;
     OutSuccessOrFailure := OutSuccessOrFailure a; OutResults := OutResults a;
     OutStatus := OutStatus a; PartialResultsDelegate := PartialResultsDelegate a;
     ThreadedResult := ThreadedResult a |}.

Definition with_future (f : TFuture)
    (a : TAwsGameKitInternalThreadedAction) : TAwsGameKitInternalThreadedAction :=
  {| ThreadedState := ThreadedState a; LatentInfo := LatentInfo a;
     InRequest := InRequest a;
     OutSuccessOrFailure := OutSuccessOrFailure a; OutResults := OutResults a;
     OutStatus := OutStatus a; PartialResultsDelegate := PartialResultsDelegate a;
     ThreadedResult := f |}.

(** *** InitializePartialResultQueue (both overloads) *)
Definition InitializePartialResultQueue (d : PartialResultsDelegateType)
    (s : TAwsGameKitInternalActionState) : TAwsGameKitInternalActionState :=
  match d with
  | FNoopStruct => s
  | Delegate _ => if IsBound d then with_queue (Some []) s else s
  end.

(** *** The constructor *)
Definition NewActionState : TAwsGameKitInternalActionState :=
  {| Err := DefaultOperationResult; Results := DefaultConstructed;
     PartialResultsQueue := None |}.

Definition Construct (junk : StaticStorage)
    (LatentInfoParam : FLatentActionInfo) (RequestParam : RequestType)
    (SuccessOrFailureParam StatusParam ResultsParam : Z)
    (PartialResultsDelegateParam : PartialResultsDelegateType)
    : Checked TAwsGameKitInternalThreadedAction :=
  oSuccessOrFailure ← InternalAwsGameKitThreadedActionSafeOutputRef
      (JunkSuccessOrFailure junk) (StackObj junk) LatentInfoParam SuccessOrFailureParam;
  oResults ← InternalAwsGameKitThreadedActionSafeOutputRef
      (JunkResults junk) (StackObj junk) LatentInfoParam ResultsParam;
  oStatus ← InternalAwsGameKitThreadedActionSafeOutputRef
      (JunkStatus junk) (StackObj junk) LatentInfoParam StatusParam;
  Ok {| ThreadedState :=
          InitializePartialResultQueue PartialResultsDelegateParam NewActionState;
        LatentInfo := LatentInfoParam;
        InRequest := RequestParam;
        OutSuccessOrFailure := oSuccessOrFailure;
        OutResults := oResults;
        OutStatus := oStatus;
        PartialResultsDelegate := PartialResultsDelegateParam;
        ThreadedResult := InvalidFuture |}.

(** *** LaunchThreadedWork: [Async] hands back a valid future, not complete
    until the lambda has returned. *)
Definition LaunchThreadedWork (a : TAwsGameKitInternalThreadedAction)
    : TAwsGameKitInternalThreadedAction :=
  with_future (Future false) a.

(** *** DispatchPartialResults *)

(** [TOptional::IsSet]. *)
Definition IsSet {A} (o : option A) : bool :=
  match o with Some _ => true | None => false end.

(** The [while (Queue->Dequeue(TempResults))] loop on the queue contents
    [q], carrying [bInvokedWithFinal]; the queue is empty when it ends. *)
Fixpoint drain (req : RequestType) (bThreadComplete : bool)
    (q : list ResultType) (bInvokedWithFinal : bool) : list Event * bool :=
  match q with
  | [] => ([], bInvokedWithFinal)
  | TempResults :: rest =>
      let bFinalInvoke := bThreadComplete && (match rest with [] => true | _ => false end) in
      let '(evs, b) := drain req bThreadComplete rest (bInvokedWithFinal || bFinalInvoke) in
      (Execute req TempResults bFinalInvoke :: evs, b)
  end.

(** The same loop before completion, with the worker pushing while it
    runs: [arrivals] lists what the worker pushes after each successful
    [Dequeue] of the loop.  The loop ends at the first [Dequeue] that finds
    the queue empty; what arrives later stays in the queue.  The result is
    the invocations made and the queue left behind. *)
Fixpoint drain_racing (req : RequestType) (q : list ResultType)
    (arrivals : list (list ResultType)) : list Event * list ResultType :=
  match arrivals with
  | [] => ((drain req false q false).1, [])
  | batch :: arrivals' =>
      match q with
      | [] => ([], concat arrivals)
      | TempResults :: rest =>
          let '(evs, remaining) := drain_racing req (rest ++ batch) arrivals' in
          (Execute req TempResults false :: evs, remaining)
      end
  end.

Definition DispatchPartialResults (a : TAwsGameKitInternalThreadedAction)
    (bThreadComplete : bool)
    : Checked (TAwsGameKitInternalThreadedAction * list Event) :=
  match PartialResultsDelegate a with
  | FNoopStruct => Ok (a, [])
  | Delegate _ =>
      if negb (IsBound (PartialResultsDelegate a)) then Ok (a, [])
      else
        _ ← check (IsSet (PartialResultsQueue (ThreadedState a)));
        match PartialResultsQueue (ThreadedState a) with
        | None => Undefined (* [->Dequeue] on the unset optional *)
        | Some q =>
            let '(evs, bInvokedWithFinal) := drain (InRequest a) bThreadComplete q false in
            let a' := with_state (with_queue (Some []) (ThreadedState a)) a in
            if bThreadComplete && negb bInvokedWithFinal
            then Ok (a', evs ++ [Execute (InRequest a) DefaultConstructed true])
            else Ok (a', evs)
        end
  end.

(** *** UpdateOperation *)
Definition UpdateOperation (a : TAwsGameKitInternalThreadedAction)
    : Checked (TAwsGameKitInternalThreadedAction * list Event) :=
  _ ← check (IsValid (ThreadedResult a));
  if IsReady (ThreadedResult a) then
    '(a1, evs) ← DispatchPartialResults a true;
    let st := ThreadedState a1 in
    Ok (with_state (with_results (MovedFrom (Results st)) st) a1,
        evs ++ [ StoreResults (OutResults a1) (Results st);
                 StoreStatus (OutStatus a1) (Err st);
                 StoreSuccessOrFailure (OutSuccessOrFailure a1)
                   (if Status (Err st) =? GAMEKIT_SUCCESS then OnSuccess else OnFailure);
                 FinishAndTriggerIf true (ExecutionFunction (LatentInfo a1))
                   (Linkage (LatentInfo a1)) (CallbackTarget (LatentInfo a1)) ])
  else DispatchPartialResults a false.

(** ** The two parties around the action: worker thread and host scheduler *)

(** What one call of [UpdateOperation] did: the value [IsReady] had, and
    the effects in order. *)
Record PollRecord : Type := {
  SawReady : bool;
  Effects : list Event
}.

(** [Registered]: the action is in the latent action manager's list.
    [Polls]: the polls made so far, oldest first. *)
Record World : Type := {
  Registered : bool;
  TheAction : TAwsGameKitInternalThreadedAction;
  Polls : list PollRecord
}.

(** *** InternalMakeAwsGameKitThreadedAction (first overload): construct
    the action and hand it to the latent action manager. *)
Definition InternalMakeAwsGameKitThreadedAction (junk : StaticStorage)
    (LatentInfo : FLatentActionInfo) (Request : RequestType)
    (SuccessOrFailure Status Results : Z) (Delegate : PartialResultsDelegateType)
    : Checked World :=
  Action ← Construct junk LatentInfo Request SuccessOrFailure Status Results Delegate;
  Ok {| Registered := true; TheAction := Action; Polls := [] |}.

Definition Launch (w : World) : World :=
  {| Registered := Registered w; TheAction := LaunchThreadedWork (TheAction w);
     Polls := Polls w |}.

(** The worker lambda, as the comment on [LaunchThreadedWork] describes it:
    while it runs it streams partial results into the queue if the queue is
    valid; it fills [Err] and [Results] and returns, which completes the
    future.  Nothing of it happens before the launch or after the return. *)
Definition WorkerEnqueue (r : ResultType) (a : TAwsGameKitInternalThreadedAction)
    : TAwsGameKitInternalThreadedAction :=
  match ThreadedResult a, PartialResultsQueue (ThreadedState a) with
  | Future false, Some q => with_state (with_queue (Some (q ++ [r])) (ThreadedState a)) a
  | _, _ => a
  end.

Definition WorkerComplete (e : FAwsGameKitOperationResult) (r : ResultType)
    (a : TAwsGameKitInternalThreadedAction) : TAwsGameKitInternalThreadedAction :=
  match ThreadedResult a with
  | Future false =>
      with_future (Future true)
        (with_state (with_err e (with_results r (ThreadedState a))) a)
  | _ => a
  end.

(** The engine's side of the latent-action contract (LatentActions.h and
    the latent action manager, which are not part of this plugin):
    [FLatentResponse::FinishAndTriggerIf(cond, ...)] with a true condition
    marks the action for removal ([bRemoveAction]), and the manager deletes
    a marked action after the poll, so that it is not polled again. *)
Definition bRemoveAction (evs : list Event) : bool :=
  existsb (fun e => match e with FinishAndTriggerIf c _ _ _ => c | _ => false end) evs.

(** One frame of the latent action manager: a registered action is polled
    once, and deleted from the list when the response asks for it. *)
Definition TickLatentAction (w : World) : Checked World :=
  if Registered w then
    '(a, evs) ← UpdateOperation (TheAction w);
    Ok {| Registered := negb (bRemoveAction evs);
          TheAction := a;
          Polls := Polls w ++ [ {| SawReady := IsReady (ThreadedResult (TheAction w));
                                   Effects := evs |} ] |}
  else Ok w.

(** A schedule interleaves the steps of the worker with the frames of the
    host.  A poll is one step: a result pushed while a poll before
    completion drains the queue is either taken by that poll, as if pushed
    before it, or left for the next, as if pushed after it
    ([drain_racing_atomic]); during the completion poll the worker has
    returned and pushes nothing. *)
Inductive Step : Type :=
| Enqueue (r : ResultType)
| Complete (e : FAwsGameKitOperationResult) (r : ResultType)
| Tick.

Definition step (w : World) (s : Step) : Checked World :=
  match s with
  | Enqueue r =>
      Ok {| Registered := Registered w; TheAction := WorkerEnqueue r (TheAction w);
            Polls := Polls w |}
  | Complete e r =>
      Ok {| Registered := Registered w; TheAction := WorkerComplete e r (TheAction w);
            Polls := Polls w |}
  | Tick => TickLatentAction w
  end.

Fixpoint run (ss : list Step) (w : World) : Checked World :=
  match ss with
  | [] => Ok w
  | s :: ss' => w' ← step w s; run ss' w'
  end.

(** Observations on a run. *)
Definition trace (w : World) : list Event := concat (map Effects (Polls w)).

(** The delegate invocations of a trace: result and final flag. *)
Fixpoint deliveries (evs : list Event) : list (ResultType * bool) :=
  match evs with
  | [] => []
  | Execute _ r b :: evs' => (r, b) :: deliveries evs'
  | _ :: evs' => deliveries evs'
  end.

(** The results a schedule pushes into the queue: those of its [Enqueue]
    steps up to the worker's return. *)
Fixpoint enqueued (ss : list Step) : list ResultType :=
  match ss with
  | [] => []
  | Enqueue r :: ss' => r :: enqueued ss'
  | Complete _ _ :: _ => []
  | Tick :: ss' => enqueued ss'
  end.

(** The status and result the worker returns with, if it does. *)
Fixpoint completion (ss : list Step) : option (FAwsGameKitOperationResult * ResultType) :=
  match ss with
  | [] => None
  | Complete e r :: _ => Some (e, r)
  | _ :: ss' => completion ss'
  end.

Definition has_tick (ss : list Step) : bool :=
  existsb (fun s => match s with Tick => true | _ => false end) ss.

(** The host polls at least once after the worker has returned. *)
Fixpoint polled_after_completion (ss : list Step) : bool :=
  match ss with
  | [] => false
  | Complete _ _ :: ss' => has_tick ss'
  | _ :: ss' => polled_after_completion ss'
  end.

(** ** Reference descriptions used in the statements *)

(** The queue is allocated exactly when the delegate is bound. *)
Definition queue_matches_delegate (a : TAwsGameKitInternalThreadedAction) : Prop :=
  IsSet (PartialResultsQueue (ThreadedState a)) = IsBound (PartialResultsDelegate a).

(** The partial results a poll of [a] finds and hands to the delegate. *)
Definition pending (a : TAwsGameKitInternalThreadedAction) : list ResultType :=
  if IsBound (PartialResultsDelegate a)
  then default [] (PartialResultsQueue (ThreadedState a))
  else [].

(** [a] with its queue emptied by a bound delegate's drain. *)
Definition drained (a : TAwsGameKitInternalThreadedAction)
    : TAwsGameKitInternalThreadedAction :=
  if IsBound (PartialResultsDelegate a)
  then with_state (with_queue (Some []) (ThreadedState a)) a
  else a.

(** [a] after the completion poll: drained, result moved out. *)
Definition finalized (a : TAwsGameKitInternalThreadedAction)
    : TAwsGameKitInternalThreadedAction :=
  with_state (with_results (MovedFrom (Results (ThreadedState a)))
                (ThreadedState (drained a))) (drained a).

(** Every element flagged [false], except the last one. *)
Fixpoint mark_last (q : list ResultType) : list (ResultType * bool) :=
  match q with
  | [] => []
  | [r] => [(r, true)]
  | r :: rest => (r, false) :: mark_last rest
  end.

(** What the delegate is to receive in the completion poll for the queue
    contents [q]: the elements in order, the last one flagged, or one empty
    result flagged final when there is none. *)
Definition completion_deliveries (q : list ResultType) : list (ResultType * bool) :=
  match q with
  | [] => [(DefaultConstructed, true)]
  | _ => mark_last q
  end.

Definition unflagged (q : list ResultType) : list (ResultType * bool) :=
  map (fun r => (r, false)) q.

Definition invoke (req : RequestType) (d : ResultType * bool) : Event :=
  Execute req d.1 d.2.

(** The pin for a status. *)
Definition pin_of (e : FAwsGameKitOperationResult)
    : EAwsGameKitSuccessOrFailureExecutionPin :=
  if Status e =? GAMEKIT_SUCCESS then OnSuccess else OnFailure.

(** The four closing effects of the completion poll of [a], in order. *)
Definition publish (a : TAwsGameKitInternalThreadedAction) : list Event :=
  [ StoreResults (OutResults a) (Results (ThreadedState a));
    StoreStatus (OutStatus a) (Err (ThreadedState a));
    StoreSuccessOrFailure (OutSuccessOrFailure a) (pin_of (Err (ThreadedState a)));
    FinishAndTriggerIf true (ExecutionFunction (LatentInfo a))
      (Linkage (LatentInfo a)) (CallbackTarget (LatentInfo a)) ].

Definition is_execute (e : Event) : bool :=
  match e with Execute _ _ _ => true | _ => false end.

(** The effects of a trace other than delegate invocations. *)
Definition output_effects (evs : list Event) : list Event :=
  filter (fun e => is_execute e = false) evs.

(** The members of an action fixed at construction. *)
Definition wiring (a : TAwsGameKitInternalThreadedAction) :=
  (LatentInfo a, InRequest a,
   (OutSuccessOrFailure a, OutResults a, OutStatus a), PartialResultsDelegate a).

(** [a] once the worker has stored its final status and result. *)
Definition settled (e : FAwsGameKitOperationResult) (r : ResultType)
    (a : TAwsGameKitInternalThreadedAction) : TAwsGameKitInternalThreadedAction :=
  with_state (with_err e (with_results r (ThreadedState a))) a.

(** A poll before completion that found [part] in the queue. *)
Definition idle_poll (a : TAwsGameKitInternalThreadedAction)
    (part : list ResultType) : PollRecord :=
  {| SawReady := false;
     Effects := map (invoke (InRequest a)) (unflagged part) |}.

(** The poll that sees the worker's final [e] and [r], with [late] still
    in the queue. *)
Definition closing_poll (a : TAwsGameKitInternalThreadedAction)
    (e : FAwsGameKitOperationResult) (r : ResultType)
    (late : list ResultType) : PollRecord :=
  {| SawReady := true;
     Effects := map (invoke (InRequest a))
                  (if IsBound (PartialResultsDelegate a)
                   then completion_deliveries late else [])
                ++ publish (settled e r a) |}.

(** The action is registered, its worker still runs. *)
Definition running (w : World) : Prop :=
  Registered w = true ∧ ThreadedResult (TheAction w) = Future false ∧
  queue_matches_delegate (TheAction w).

(** The world once the completion poll has been made. *)
Definition closed (w : World) : World :=
  {| Registered := false;
     TheAction := finalized (TheAction w);
     Polls := Polls w ++
       [ {| SawReady := true;
            Effects := map (invoke (InRequest (TheAction w)))
                         (if IsBound (PartialResultsDelegate (TheAction w))
                          then completion_deliveries (pending (TheAction w)) else [])
                       ++ publish (TheAction w) |} ] |}.

(** The shape of every run from a running world: some polls before
    completion, each handing over the part of the queue it found, then at
    most one completion poll. *)
Definition run_shape (ss : list Step) (w w' : World) : Prop :=
  let a := TheAction w in
  wiring (TheAction w') = wiring a ∧
  IsValid (ThreadedResult (TheAction w')) = true ∧
  queue_matches_delegate (TheAction w') ∧
  ∃ (parts : list (list ResultType)) (late : list ResultType),
    (IsBound (PartialResultsDelegate a) = true →
       concat parts ++ late = pending a ++ enqueued ss) ∧
    if polled_after_completion ss
    then ∃ e r, completion ss = Some (e, r) ∧ Registered w' = false ∧
                ThreadedResult (TheAction w') = Future true ∧
                Polls w' = Polls w ++ map (idle_poll a) parts ++ [closing_poll a e r late]
    else Registered w' = true ∧
         Polls w' = Polls w ++ map (idle_poll a) parts.

(** ** Further definitions: the second overload, and accounts of a schedule *)

(** *** InternalMakeAwsGameKitThreadedAction (second overload), for actions
    without a result: it declares a local [FNoopStruct Result], whose
    address is [Result] here, and passes it with an [FNoopStruct] delegate
    to the first overload.  The source instantiates [ResultType] with
    [FNoopStruct]; nothing below depends on the result type. *)
Definition InternalMakeAwsGameKitThreadedAction_NoResult (junk : StaticStorage)
    (Result : Z) (LatentInfo : FLatentActionInfo) (Request : RequestType)
    (SuccessOrFailure Status : Z) : Checked World :=
  InternalMakeAwsGameKitThreadedAction junk LatentInfo Request
    SuccessOrFailure Status Result FNoopStruct.

(** The three conditions [InternalAwsGameKitThreadedActionSafeOutputRef]
    tests: the first [check], the frame test, the second [check]. *)
Definition frame_sane (li : FLatentActionInfo) : bool :=
  negb (GetPersistentUberGraphFrame li =? 0) && (0 <? GetStructureSize li)
  && (GetStructureSize li <? ExtremelyLargeBPFrameSize).

Definition in_frame (li : FLatentActionInfo) (addr : Z) : bool :=
  (GetPersistentUberGraphFrame li <=? addr)
  && (addr <? GetPersistentUberGraphFrame li + GetStructureSize li).

Definition near_stack (stackobj addr : Z) : bool :=
  size_t_of_ptrdiff (addr - stackobj) <? NearbyStackAddressLimit.

(** The reference a parameter is captured as. *)
Definition captured (li : FLatentActionInfo) (junk addr : Z) : Z :=
  if in_frame li addr then addr else junk.

(** What the polls before the worker's return hand over, when the queue
    holds [q] at the start of the schedule. *)
Fixpoint handed_early (q : list ResultType) (ss : list Step) : list ResultType :=
  match ss with
  | [] => []
  | Enqueue r :: ss' => handed_early (q ++ [r]) ss'
  | Tick :: ss' => q ++ handed_early [] ss'
  | Complete _ _ :: _ => []
  end.

(** What is in the queue when the worker returns, or at the end of a
    schedule in which it does not: the pushes since the last poll. *)
Fixpoint backlog (q : list ResultType) (ss : list Step) : list ResultType :=
  match ss with
  | [] => q
  | Enqueue r :: ss' => backlog (q ++ [r]) ss'
  | Tick :: ss' => backlog [] ss'
  | Complete _ _ :: _ => q
  end.



(** The requests a trace invokes the delegate with. *)
Fixpoint requests (evs : list Event) : list RequestType :=
  match evs with
  | [] => []
  | Execute req _ _ :: evs' => req :: requests evs'
  | _ :: evs' => requests evs'
  end.

(* ================================================================== *)
(** * Part II: properties of the threaded action *)
(* ================================================================== *)

(** Expose the fields of an action. *)
Ltac open_action a :=
  destruct a as [[?e ?r ?q] ?li ?req ?o1 ?o2 ?o3 ?d ?f]; cbn in *.

(** ** The drain loop *)

Lemma mark_last_snoc (init : list ResultType) (x : ResultType) :
  mark_last (init ++ [x]) = unflagged init ++ [(x, true)].
Proof.
  induction init as [|y init IH]; [reflexivity|].
  change ((y :: init) ++ [x]) with (y :: (init ++ [x])).
  cbn [mark_last]. rewrite IH.
  destruct init; reflexivity.
Qed.

Lemma drain_cons (req : RequestType) (c : bool) (r : ResultType)
    (rest : list ResultType) (b : bool) :
  drain req c (r :: rest) b =
    let bFinalInvoke := c && (match rest with [] => true | _ => false end) in
    let tail := drain req c rest (b || bFinalInvoke) in
    (Execute req r bFinalInvoke :: tail.1, tail.2).
Proof. cbn [drain]. destruct (drain req c rest _). reflexivity. Qed.

Lemma drain_incomplete (req : RequestType) (q : list ResultType) (b : bool) :
  drain req false q b = (map (invoke req) (unflagged q), b).
Proof.
  revert b. induction q as [|r q IH]; intros b; [reflexivity|].
  rewrite drain_cons. cbn zeta. cbn [andb]. rewrite IH, orb_false_r. reflexivity.
Qed.

Lemma drain_complete (req : RequestType) (q : list ResultType) (b : bool) :
  q ≠ [] → drain req true q b = (map (invoke req) (mark_last q), true).
Proof.
  revert b. induction q as [|r q IH]; intros b Hq; [done|].
  rewrite drain_cons. cbn zeta. destruct q as [|r' q].
  - cbn. rewrite orb_true_r. reflexivity.
  - rewrite IH by done. reflexivity.
Qed.

(** X13.  A drain raced by the worker does what an undisturbed drain does
    on the part of the pushes it got to see, a prefix of the queue followed
    by the arrivals; the other pushes are in the queue afterwards, in
    order. *)
Lemma drain_racing_atomic (req : RequestType) (arrivals : list (list ResultType)) :
  ∀ q, ∃ consumed,
    q ++ concat arrivals = consumed ++ (drain_racing req q arrivals).2 ∧
    (drain_racing req q arrivals).1 = (drain req false consumed false).1.
Proof.
  induction arrivals as [|batch arrivals IH]; intros q.
  - exists q. cbn. by rewrite app_nil_r.
  - destruct q as [|x rest].
    + exists []. done.
    + destruct (IH (rest ++ batch)) as (consumed & Hsplit & Hevs).
      exists (x :: consumed). cbn [drain_racing concat].
      destruct (drain_racing req (rest ++ batch) arrivals) as [evs remaining].
      cbn [fst snd] in *. split.
      * cbn. rewrite <- Hsplit, <- app_assoc. reflexivity.
      * rewrite drain_cons. cbn. rewrite Hevs. reflexivity.
Qed.

(** On completion, the loop and the call that may follow it hand over
    exactly [completion_deliveries]. *)
Lemma drain_then_final (req : RequestType) (q : list ResultType) :
  (let '(evs, bInvokedWithFinal) := drain req true q false in
   if negb bInvokedWithFinal
   then evs ++ [Execute req DefaultConstructed true]
   else evs) = map (invoke req) (completion_deliveries q).
Proof.
  destruct q as [|r q]; [reflexivity|].
  rewrite drain_complete by done. reflexivity.
Qed.

(** ** One poll in closed form *)

Lemma check_true (e : bool) : e = true → check e = Ok tt.
Proof. intros ->. unfold check. rewrite andb_false_r. reflexivity. Qed.

Lemma DispatchPartialResults_spec (a : TAwsGameKitInternalThreadedAction)
    (bThreadComplete : bool) :
  queue_matches_delegate a →
  DispatchPartialResults a bThreadComplete =
    Ok (drained a,
        if IsBound (PartialResultsDelegate a)
        then map (invoke (InRequest a))
               (if bThreadComplete then completion_deliveries (pending a)
                else unflagged (pending a))
        else []).
Proof.
  unfold queue_matches_delegate, DispatchPartialResults, drained, pending.
  destruct (PartialResultsDelegate a) as [|[|]]; cbn [IsBound negb]; intros Hq;
    try reflexivity.
  destruct (PartialResultsQueue (ThreadedState a)) as [q|]; [|discriminate].
  rewrite (check_true (IsSet (Some q)) eq_refl).
  cbn [default from_option id mbind Checked_bind]. destruct bThreadComplete.
  - pose proof (drain_then_final (InRequest a) q) as Hd.
    destruct (drain (InRequest a) true q false) as [evs b].
    cbn [andb]. rewrite <- Hd. destruct b; reflexivity.
  - rewrite drain_incomplete. reflexivity.
Qed.

Lemma drained_fields (a : TAwsGameKitInternalThreadedAction) :
  LatentInfo (drained a) = LatentInfo a ∧ InRequest (drained a) = InRequest a ∧
  OutSuccessOrFailure (drained a) = OutSuccessOrFailure a ∧
  OutResults (drained a) = OutResults a ∧ OutStatus (drained a) = OutStatus a ∧
  PartialResultsDelegate (drained a) = PartialResultsDelegate a ∧
  ThreadedResult (drained a) = ThreadedResult a ∧
  Err (ThreadedState (drained a)) = Err (ThreadedState a) ∧
  Results (ThreadedState (drained a)) = Results (ThreadedState a).
Proof. unfold drained. destruct (IsBound _); repeat split. Qed.

Lemma UpdateOperation_spec (a : TAwsGameKitInternalThreadedAction) :
  IsValid (ThreadedResult a) = true →
  queue_matches_delegate a →
  UpdateOperation a =
    if IsReady (ThreadedResult a)
    then Ok (finalized a,
             map (invoke (InRequest a))
               (if IsBound (PartialResultsDelegate a)
                then completion_deliveries (pending a) else [])
             ++ publish a)
    else Ok (drained a, map (invoke (InRequest a)) (unflagged (pending a))).
Proof.
  intros Hv Hq. unfold UpdateOperation. rewrite (check_true _ Hv).
  cbn [mbind Checked_bind].
  rewrite !DispatchPartialResults_spec by done.
  destruct (IsReady (ThreadedResult a)).
  - cbn [mbind Checked_bind]. unfold finalized, publish, pin_of.
    destruct (drained_fields a) as (-> & _ & -> & -> & -> & _ & _ & -> & ->).
    destruct (IsBound (PartialResultsDelegate a)); reflexivity.
  - unfold pending. destruct (IsBound (PartialResultsDelegate a)); reflexivity.
Qed.

(** ** Worker steps *)

Lemma WorkerEnqueue_running (r : ResultType) (a : TAwsGameKitInternalThreadedAction) :
  ThreadedResult a = Future false → queue_matches_delegate a →
  wiring (WorkerEnqueue r a) = wiring a ∧
  ThreadedResult (WorkerEnqueue r a) = Future false ∧
  queue_matches_delegate (WorkerEnqueue r a) ∧
  pending (WorkerEnqueue r a) =
    if IsBound (PartialResultsDelegate a) then pending a ++ [r] else [].
Proof.
  unfold queue_matches_delegate, WorkerEnqueue, pending, wiring.
  open_action a. intros -> Hq.
  destruct q as [q|], d as [|[|]]; cbn in *; try discriminate; done.
Qed.

Lemma WorkerComplete_running (e : FAwsGameKitOperationResult) (r : ResultType)
    (a : TAwsGameKitInternalThreadedAction) :
  ThreadedResult a = Future false →
  WorkerComplete e r a = with_future (Future true) (settled e r a).
Proof. unfold WorkerComplete. intros ->. reflexivity. Qed.

Lemma Worker_inert (a : TAwsGameKitInternalThreadedAction) :
  ThreadedResult a = Future true →
  (∀ r, WorkerEnqueue r a = a) ∧ (∀ e r, WorkerComplete e r a = a).
Proof.
  unfold WorkerEnqueue, WorkerComplete. intros ->. split; reflexivity.
Qed.

(** ** Observations on traces *)

Lemma deliveries_app (evs evs' : list Event) :
  deliveries (evs ++ evs') = deliveries evs ++ deliveries evs'.
Proof.
  induction evs as [|[] evs IH]; cbn; rewrite ?IH; reflexivity.
Qed.

Lemma deliveries_invoke (req : RequestType) (ds : list (ResultType * bool)) :
  deliveries (map (invoke req) ds) = ds.
Proof.
  induction ds as [|[r b] ds IH]; cbn; [|rewrite IH]; reflexivity.
Qed.

Lemma deliveries_publish (a : TAwsGameKitInternalThreadedAction) :
  deliveries (publish a) = [].
Proof. reflexivity. Qed.

Lemma output_effects_app (evs evs' : list Event) :
  output_effects (evs ++ evs') = output_effects evs ++ output_effects evs'.
Proof. unfold output_effects. apply filter_app. Qed.

Lemma output_effects_invoke (req : RequestType) (ds : list (ResultType * bool)) :
  output_effects (map (invoke req) ds) = [].
Proof.
  induction ds as [|[r b] ds IH]; [reflexivity|].
  unfold output_effects in *. cbn [map invoke]. rewrite filter_cons.
  cbn [is_execute]. rewrite decide_False by done. exact IH.
Qed.

Lemma output_effects_publish (a : TAwsGameKitInternalThreadedAction) :
  output_effects (publish a) = publish a.
Proof. reflexivity. Qed.

Lemma bRemoveAction_invoke (req : RequestType) (ds : list (ResultType * bool)) :
  bRemoveAction (map (invoke req) ds) = false.
Proof. induction ds as [|[r b] ds IH]; [reflexivity|exact IH]. Qed.

Lemma bRemoveAction_publish (evs : list Event) (a : TAwsGameKitInternalThreadedAction) :
  bRemoveAction (evs ++ publish a) = true.
Proof.
  unfold bRemoveAction. rewrite existsb_app.
  apply orb_true_iff. right. reflexivity.
Qed.

(** ** Runs, phase by phase *)

Lemma finalized_fields (a : TAwsGameKitInternalThreadedAction) :
  wiring (finalized a) = wiring a ∧
  ThreadedResult (finalized a) = ThreadedResult a ∧
  (queue_matches_delegate a → queue_matches_delegate (finalized a)).
Proof.
  unfold finalized, drained, wiring, queue_matches_delegate.
  open_action a. destruct d as [|[|]]; cbn; done.
Qed.

Lemma drained_running (a : TAwsGameKitInternalThreadedAction) :
  queue_matches_delegate a →
  wiring (drained a) = wiring a ∧
  ThreadedResult (drained a) = ThreadedResult a ∧
  queue_matches_delegate (drained a) ∧
  pending (drained a) = [].
Proof.
  unfold drained, wiring, queue_matches_delegate, pending.
  open_action a. destruct d as [|[|]]; cbn; done.
Qed.

(** Removed and complete: nothing moves any more. *)
Lemma run_removed (ss : list Step) (w : World) :
  Registered w = false → ThreadedResult (TheAction w) = Future true →
  run ss w = Ok w.
Proof.
  intros Hr Hf. induction ss as [|s ss IH]; [reflexivity|].
  destruct (Worker_inert _ Hf) as [He Hc].
  destruct w as [reg a ps]. cbn in *. subst reg.
  destruct s; cbn; rewrite ?He, ?Hc; exact IH.
Qed.

(** Complete, not yet polled: the first tick makes the completion poll. *)
Lemma run_completed (ss : list Step) (w : World) :
  Registered w = true → ThreadedResult (TheAction w) = Future true →
  queue_matches_delegate (TheAction w) →
  run ss w = Ok (if has_tick ss then closed w else w).
Proof.
  intros Hr Hf Hq. induction ss as [|s ss IH]; [reflexivity|].
  destruct (Worker_inert _ Hf) as [He Hc].
  destruct s.
  - destruct w as [reg a ps]. cbn in *. rewrite He. exact IH.
  - destruct w as [reg a ps]. cbn in *. rewrite Hc. exact IH.
  - cbn [run step has_tick existsb orb]. unfold TickLatentAction. rewrite Hr.
    rewrite UpdateOperation_spec by (rewrite ?Hf; done).
    rewrite Hf. cbn [IsReady mbind Checked_bind].
    rewrite bRemoveAction_publish. cbn [negb].
    apply run_removed; [reflexivity|].
    unfold closed. cbn [TheAction].
    destruct (finalized_fields (TheAction w)) as (_ & -> & _). exact Hf.
Qed.

Lemma idle_poll_wiring (a a' : TAwsGameKitInternalThreadedAction) :
  wiring a' = wiring a → idle_poll a' = idle_poll a.
Proof. unfold wiring, idle_poll. intros [= _ -> _ _ _ _]. reflexivity. Qed.

Lemma closing_poll_wiring (a a' : TAwsGameKitInternalThreadedAction) :
  wiring a' = wiring a → closing_poll a' = closing_poll a.
Proof.
  unfold wiring, closing_poll, publish, settled.
  intros [= Hl Hr Ho1 Ho2 Ho3 Hd]. cbn. rewrite Hl, Hr, Ho1, Ho2, Ho3, Hd. reflexivity.
Qed.

Lemma run_running (ss : list Step) :
  ∀ w, running w → ∃ w', run ss w = Ok w' ∧ run_shape ss w w'.
Proof.
  induction ss as [|s ss IH]; intros w (Hr & Hf & Hq).
  - exists w. split; [reflexivity|]. unfold run_shape. rewrite Hf.
    repeat split; try done. exists [], (pending (TheAction w)).
    cbn. rewrite !app_nil_r. done.
  - destruct s as [r|e r|].
    + (* the worker pushes a partial result *)
      destruct (WorkerEnqueue_running r _ Hf Hq) as (Hw & Hf' & Hq' & Hp).
      destruct (IH {| Registered := Registered w;
                      TheAction := WorkerEnqueue r (TheAction w);
                      Polls := Polls w |}) as (w' & Hrun & Hw' & Hv' & Hq'' & parts & late & Hsplit & Hpolls);
        [done|].
      exists w'. split; [exact Hrun|]. cbn [TheAction Polls] in *.
      unfold run_shape. rewrite Hw' , Hw. repeat split; try done.
      exists parts, late. split.
      * intros Hb. assert (Hb' := Hb).
        replace (PartialResultsDelegate (WorkerEnqueue r (TheAction w)))
          with (PartialResultsDelegate (TheAction w)) in Hsplit
          by (unfold wiring in Hw; congruence).
        rewrite Hsplit by done. rewrite Hp, Hb. cbn. rewrite <- app_assoc. reflexivity.
      * cbn [polled_after_completion completion].
        rewrite (idle_poll_wiring _ _ Hw), (closing_poll_wiring _ _ Hw) in Hpolls.
        exact Hpolls.
    + (* the worker returns *)
      pose (w1 := {| Registered := Registered w;
                     TheAction := WorkerComplete e r (TheAction w);
                     Polls := Polls w |}).
      assert (Hw1 : WorkerComplete e r (TheAction w)
                    = with_future (Future true) (settled e r (TheAction w)))
        by (apply WorkerComplete_running; done).
      assert (Hwir : wiring (WorkerComplete e r (TheAction w)) = wiring (TheAction w))
        by (rewrite Hw1; reflexivity).
      assert (Hq1 : queue_matches_delegate (WorkerComplete e r (TheAction w)))
        by (rewrite Hw1; exact Hq).
      assert (Hp1 : pending (WorkerComplete e r (TheAction w)) = pending (TheAction w))
        by (rewrite Hw1; reflexivity).
      exists (if has_tick ss then closed w1 else w1). split.
      { cbn [run step mbind Checked_bind]. apply run_completed; subst w1; cbn; try done.
        rewrite Hw1. reflexivity. }
      unfold run_shape. cbn [polled_after_completion completion enqueued].
      destruct (has_tick ss); subst w1; cbn [TheAction Polls Registered closed].
      * destruct (finalized_fields (WorkerComplete e r (TheAction w))) as (-> & -> & Hfq).
        rewrite Hwir. repeat split; try done; [rewrite Hw1; reflexivity | by apply Hfq |].
        exists [], (pending (TheAction w)). split; [by rewrite app_nil_r|].
        exists e, r. split; [reflexivity|]. split; [reflexivity|].
        split; [rewrite Hw1; reflexivity|]. cbn [map app]. do 2 f_equal.
        unfold closing_poll. rewrite Hp1. f_equal.
        replace (InRequest (WorkerComplete e r (TheAction w))) with (InRequest (TheAction w))
          by (unfold wiring in Hwir; congruence).
        replace (PartialResultsDelegate (WorkerComplete e r (TheAction w)))
          with (PartialResultsDelegate (TheAction w))
          by (unfold wiring in Hwir; congruence).
        rewrite Hw1. reflexivity.
      * rewrite Hwir. repeat split; try done; [rewrite Hw1; reflexivity|].
        exists [], (pending (TheAction w)). split; [by rewrite app_nil_r|].
        split; [done|]. cbn. by rewrite app_nil_r.
    + (* the host polls before completion *)
      destruct (drained_running _ Hq) as (Hw & Hf' & Hq' & Hp).
      destruct (IH {| Registered := true;
                      TheAction := drained (TheAction w);
                      Polls := Polls w ++ [idle_poll (TheAction w) (pending (TheAction w))] |})
        as (w' & Hrun & Hw' & Hv' & Hq'' & parts & late & Hsplit & Hpolls).
      { repeat split; cbn; try done. rewrite Hf'. exact Hf. }
      exists w'. split.
      { cbn [run step]. unfold TickLatentAction. rewrite Hr.
        rewrite UpdateOperation_spec by (rewrite ?Hf; done).
        rewrite Hf. cbn [IsReady mbind Checked_bind].
        rewrite bRemoveAction_invoke. exact Hrun. }
      cbn [TheAction Polls] in *. unfold run_shape.
      rewrite Hw', Hw. repeat split; try done.
      exists (pending (TheAction w) :: parts), late. split.
      * intros Hb. cbn [concat enqueued]. rewrite <- app_assoc.
        replace (PartialResultsDelegate (drained (TheAction w)))
          with (PartialResultsDelegate (TheAction w)) in Hsplit
          by (unfold wiring in Hw; congruence).
        rewrite Hsplit by done. rewrite Hp. reflexivity.
      * cbn [polled_after_completion completion map].
        rewrite (idle_poll_wiring _ _ Hw), (closing_poll_wiring _ _ Hw) in Hpolls.
        destruct (polled_after_completion ss).
        -- destruct Hpolls as (e & r & Hc & Hreg & Hfut & Hpolls).
           exists e, r. rewrite Hpolls, <- app_assoc. done.
        -- destruct Hpolls as (Hreg & Hpolls).
           rewrite Hpolls, <- app_assoc. done.
Qed.

(** ** Construction and launch *)

Lemma Construct_fields (junk : StaticStorage) (li : FLatentActionInfo)
    (req : RequestType) (pSuccessOrFailure pStatus pResults : Z)
    (d : PartialResultsDelegateType) (a : TAwsGameKitInternalThreadedAction) :
  Construct junk li req pSuccessOrFailure pStatus pResults d = Ok a →
  ThreadedState a = InitializePartialResultQueue d NewActionState ∧
  LatentInfo a = li ∧ InRequest a = req ∧ PartialResultsDelegate a = d ∧
  ThreadedResult a = InvalidFuture.
Proof.
  unfold Construct. intros Hc.
  destruct (InternalAwsGameKitThreadedActionSafeOutputRef _ _ _ pSuccessOrFailure);
    [|discriminate..].
  destruct (InternalAwsGameKitThreadedActionSafeOutputRef _ _ _ pResults);
    [|discriminate..].
  destruct (InternalAwsGameKitThreadedActionSafeOutputRef _ _ _ pStatus);
    [|discriminate..].
  cbn in Hc. injection Hc as <-. repeat split.
Qed.

Lemma InitializePartialResultQueue_matches (d : PartialResultsDelegateType) :
  IsSet (PartialResultsQueue (InitializePartialResultQueue d NewActionState)) = IsBound d ∧
  default [] (PartialResultsQueue (InitializePartialResultQueue d NewActionState)) = [].
Proof. destruct d as [|[|]]; split; reflexivity. Qed.

Lemma Launch_running (junk : StaticStorage) (li : FLatentActionInfo)
    (req : RequestType) (pSuccessOrFailure pStatus pResults : Z)
    (d : PartialResultsDelegateType) (w0 : World) :
  InternalMakeAwsGameKitThreadedAction junk li req pSuccessOrFailure pStatus pResults d
    = Ok w0 →
  running (Launch w0) ∧ Polls (Launch w0) = [] ∧
  pending (TheAction (Launch w0)) = [] ∧
  wiring (TheAction (Launch w0)) = wiring (TheAction w0) ∧
  PartialResultsDelegate (TheAction w0) = d ∧
  LatentInfo (TheAction w0) = li ∧ InRequest (TheAction w0) = req ∧
  queue_matches_delegate (TheAction w0) ∧
  ThreadedResult (TheAction w0) = InvalidFuture.
Proof.
  unfold InternalMakeAwsGameKitThreadedAction. intros Hm.
  destruct (Construct junk li req pSuccessOrFailure pStatus pResults d) as [a| |] eqn:Hc;
    [|discriminate..].
  cbn in Hm. injection Hm as <-.
  destruct (Construct_fields _ _ _ _ _ _ _ _ Hc) as (Hs & Hl & Hr & Hd & Hf).
  destruct (InitializePartialResultQueue_matches d) as [Hset Hempty].
  unfold running, queue_matches_delegate, pending. cbn.
  rewrite Hs, Hd, Hset, Hempty. repeat split; try done.
  destruct (IsBound d); reflexivity.
Qed.

(** Every schedule runs to the end from a freshly launched action, in the
    shape [run_shape] describes. *)
Lemma run_launched (junk : StaticStorage) (li : FLatentActionInfo)
    (req : RequestType) (pSuccessOrFailure pStatus pResults : Z)
    (d : PartialResultsDelegateType) (w0 : World) (ss : list Step) :
  InternalMakeAwsGameKitThreadedAction junk li req pSuccessOrFailure pStatus pResults d
    = Ok w0 →
  ∃ w, run ss (Launch w0) = Ok w ∧ run_shape ss (Launch w0) w.
Proof.
  intros Hm. apply run_running.
  exact (proj1 (Launch_running _ _ _ _ _ _ _ _ Hm)).
Qed.

(** ** The claims about a single poll *)

(** C1.  A poll of a launched action whose worker has not returned hands
    the partial results found in the queue to a bound delegate, unflagged
    and in order, and leaves the action as it was but for the emptied queue.
    A poll that finds the worker returned first dispatches what remains in
    the queue, then stores the final result, the status and the pin through
    the three output references, then calls [FinishAndTriggerIf] with
    [true], in this order and with nothing in between. *)
Theorem UpdateOperation_poll (a : TAwsGameKitInternalThreadedAction) :
  IsValid (ThreadedResult a) = true →
  queue_matches_delegate a →
  (IsReady (ThreadedResult a) = false →
     UpdateOperation a
       = Ok (drained a, map (fun r => Execute (InRequest a) r false) (pending a))) ∧
  (IsReady (ThreadedResult a) = true →
     ∃ dispatched,
       DispatchPartialResults a true = Ok (drained a, dispatched) ∧
       output_effects dispatched = [] ∧
       deliveries dispatched
         = (if IsBound (PartialResultsDelegate a)
            then completion_deliveries (pending a) else []) ∧
       UpdateOperation a
         = Ok (finalized a,
               dispatched ++
               [ StoreResults (OutResults a) (Results (ThreadedState a));
                 StoreStatus (OutStatus a) (Err (ThreadedState a));
                 StoreSuccessOrFailure (OutSuccessOrFailure a)
                   (if Status (Err (ThreadedState a)) =? GAMEKIT_SUCCESS
                    then OnSuccess else OnFailure);
                 FinishAndTriggerIf true (ExecutionFunction (LatentInfo a))
                   (Linkage (LatentInfo a)) (CallbackTarget (LatentInfo a)) ])).
Proof.
  intros Hv Hq. split; intros Hr.
  - rewrite UpdateOperation_spec, Hr by done. unfold unflagged.
    rewrite map_map. reflexivity.
  - exists (map (invoke (InRequest a))
              (if IsBound (PartialResultsDelegate a)
               then completion_deliveries (pending a) else [])).
    split; [|split; [|split]].
    + rewrite DispatchPartialResults_spec by done.
      destruct (IsBound (PartialResultsDelegate a)); reflexivity.
    + apply output_effects_invoke.
    + apply deliveries_invoke.
    + rewrite UpdateOperation_spec, Hr by done. reflexivity.
Qed.

Lemma replay_app (evs evs' : list Event) (m : Memory) :
  replay (evs ++ evs') m = replay evs' (replay evs m).
Proof. unfold replay. apply foldl_app. Qed.

(** C4.  The completion poll stores the operation result the worker left
    in [Err] through the status reference, and through the pin reference
    [OnSuccess] when its status code equals [GAMEKIT_SUCCESS], [OnFailure]
    when it does not. *)
Theorem UpdateOperation_branch (a : TAwsGameKitInternalThreadedAction) (m : Memory) :
  IsReady (ThreadedResult a) = true →
  queue_matches_delegate a →
  ∃ a' evs pin,
    UpdateOperation a = Ok (a', evs) ∧
    StatusCells (replay evs m) !! OutStatus a = Some (Err (ThreadedState a)) ∧
    PinCells (replay evs m) !! OutSuccessOrFailure a = Some pin ∧
    (pin = OnSuccess ↔ Status (Err (ThreadedState a)) = GAMEKIT_SUCCESS) ∧
    (pin = OnFailure ↔ Status (Err (ThreadedState a)) ≠ GAMEKIT_SUCCESS).
Proof.
  intros Hr Hq.
  assert (Hv : IsValid (ThreadedResult a) = true)
    by (destruct (ThreadedResult a); [discriminate|reflexivity]).
  eexists _, _, (pin_of (Err (ThreadedState a))).
  split; [rewrite UpdateOperation_spec, Hr by done; reflexivity|].
  rewrite replay_app. unfold publish, replay at 1 3. cbn [foldl apply_event].
  cbn [StatusCells PinCells]. rewrite !lookup_insert_eq.
  split; [reflexivity|]. split; [reflexivity|].
  unfold pin_of. destruct (Z.eqb_spec (Status (Err (ThreadedState a))) GAMEKIT_SUCCESS);
    split; split; intros; done.
Qed.

(** ** The claims about construction and the polls that follow *)

(** C5.  The constructor allocates the queue exactly when the delegate it
    is given is a bound delegate: never for [FNoopStruct], never for an
    unbound one.  After the launch, whatever the worker and the host do, the
    delegate stays the one given and the queue stays allocated exactly when
    that delegate is bound. *)
Theorem queue_allocated_iff_bound (junk : StaticStorage) (li : FLatentActionInfo)
    (req : RequestType) (pSuccessOrFailure pStatus pResults : Z)
    (d : PartialResultsDelegateType) (w0 : World) :
  InternalMakeAwsGameKitThreadedAction junk li req pSuccessOrFailure pStatus pResults d
    = Ok w0 →
  (IsSet (PartialResultsQueue (ThreadedState (TheAction w0))) = true ↔ d = Delegate true) ∧
  ∀ ss, ∃ w,
    run ss (Launch w0) = Ok w ∧
    PartialResultsDelegate (TheAction w) = d ∧
    (IsSet (PartialResultsQueue (ThreadedState (TheAction w))) = true ↔ d = Delegate true).
Proof.
  intros Hm.
  destruct (Launch_running _ _ _ _ _ _ _ _ Hm)
    as (_ & _ & _ & Hwl & Hd & _ & _ & Hq0 & _).
  assert (Hb : IsBound d = true ↔ d = Delegate true)
    by (destruct d as [|[|]]; cbn; split; done).
  split.
  - rewrite Hq0, Hd. exact Hb.
  - intros ss. destruct (run_launched _ _ _ _ _ _ _ _ ss Hm)
      as (w & Hrun & Hw & _ & Hq & _).
    exists w. split; [exact Hrun|].
    assert (Hd' : PartialResultsDelegate (TheAction w) = d)
      by (rewrite Hwl in Hw; unfold wiring in Hw; congruence).
    split; [exact Hd'|]. rewrite Hq, Hd'. exact Hb.
Qed.

(** C7.  [UpdateOperation] starts with [check(ThreadedResult.IsValid())]:
    in a build with checks, a poll of an action whose future is invalid is
    fatal, and that is what polling a constructed but never launched action
    does.  When [LaunchThreadedWork] follows the construction, the future is
    valid before every poll of every schedule, the check passes, and the
    whole schedule runs without a fatal error. *)
Theorem UpdateOperation_check_valid (junk : StaticStorage) (li : FLatentActionInfo)
    (req : RequestType) (pSuccessOrFailure pStatus pResults : Z)
    (d : PartialResultsDelegateType) (w0 : World) :
  InternalMakeAwsGameKitThreadedAction junk li req pSuccessOrFailure pStatus pResults d
    = Ok w0 →
  (∀ a, DO_CHECK = true → IsValid (ThreadedResult a) = false →
        UpdateOperation a = CheckFailed) ∧
  (DO_CHECK = true → run [Tick] w0 = CheckFailed) ∧
  ∀ ss, ∃ w,
    run ss (Launch w0) = Ok w ∧
    IsValid (ThreadedResult (TheAction w)) = true ∧
    check (IsValid (ThreadedResult (TheAction w))) = Ok tt.
Proof.
  intros Hm.
  assert (Hfatal : ∀ a, DO_CHECK = true → IsValid (ThreadedResult a) = false →
                        UpdateOperation a = CheckFailed).
  { intros a Hc Hv. unfold UpdateOperation, check. rewrite Hc, Hv. reflexivity. }
  split; [exact Hfatal|]. split.
  - intros Hc.
    destruct (Launch_running _ _ _ _ _ _ _ _ Hm) as (_ & _ & _ & _ & _ & _ & _ & _ & Hf).
    assert (Hreg : Registered w0 = true).
    { unfold InternalMakeAwsGameKitThreadedAction in Hm.
      destruct (Construct _ _ _ _ _ _ _); [|discriminate..].
      cbn in Hm. injection Hm as <-. reflexivity. }
    cbn [run step]. unfold TickLatentAction. rewrite Hreg.
    rewrite Hfatal; [reflexivity|exact Hc|rewrite Hf; reflexivity].
  - intros ss. destruct (run_launched _ _ _ _ _ _ _ _ ss Hm)
      as (w & Hrun & _ & Hv & _).
    exists w. split; [exact Hrun|]. split; [exact Hv|]. apply check_true, Hv.
Qed.

(** ** The claims about whole runs *)

Lemma unflagged_app (l l' : list ResultType) :
  unflagged (l ++ l') = unflagged l ++ unflagged l'.
Proof. apply map_app. Qed.

Lemma idle_polls_observed (a : TAwsGameKitInternalThreadedAction)
    (parts : list (list ResultType)) :
  filter (fun p => SawReady p = true) (map (idle_poll a) parts) = [] ∧
  concat (map Effects (map (idle_poll a) parts))
    = map (invoke (InRequest a)) (unflagged (concat parts)).
Proof.
  induction parts as [|part parts [IHf IHc]]; [done|]. split.
  - cbn [map]. rewrite filter_cons. cbn [idle_poll SawReady].
    rewrite decide_False by done. exact IHf.
  - cbn [map concat idle_poll Effects]. rewrite IHc, unflagged_app, map_app.
    reflexivity.
Qed.

Lemma unflagged_shape (l : list ResultType) :
  map fst (unflagged l) = l ∧
  map snd (unflagged l) = replicate (length (unflagged l)) false.
Proof.
  unfold unflagged. induction l as [|x l [IH1 IH2]]; [done|].
  cbn. rewrite IH1. rewrite IH2 at 1. done.
Qed.

Lemma flagged_last_shape (l : list ResultType) (x : ResultType) :
  map fst (unflagged l ++ [(x, true)]) = l ++ [x] ∧
  map snd (unflagged l ++ [(x, true)])
    = replicate (length (unflagged l ++ [(x, true)]) - 1)%nat false ++ [true].
Proof.
  destruct (unflagged_shape l) as [H1' H2'].
  rewrite !map_app, H1', H2', length_app. cbn.
  replace (length (unflagged l) + 1 - 1)%nat with (length (unflagged l)) by lia.
  done.
Qed.

Lemma unflagged_no_final (l : list ResultType) :
  filter (fun d : ResultType * bool => d.2 = true) (unflagged l) = [].
Proof.
  induction l as [|y l IH]; [done|].
  unfold unflagged in *. cbn [map]. rewrite filter_cons.
  rewrite decide_False by (cbn; done). exact IH.
Qed.

Lemma completion_deliveries_shape (early late : list ResultType) :
  let ds := unflagged early ++ completion_deliveries late in
  (map fst ds = early ++ late ∨ map fst ds = (early ++ late) ++ [DefaultConstructed]) ∧
  map snd ds = replicate (length ds - 1)%nat false ++ [true] ∧
  length (filter (fun d => d.2 = true) ds) = 1%nat ∧
  (early ++ late = [] → ds = [(DefaultConstructed, true)]).
Proof.
  destruct late as [|x late _] using rev_ind; cbn zeta.
  - cbn [completion_deliveries]. rewrite app_nil_r.
    destruct (flagged_last_shape early DefaultConstructed) as [Hf Hs].
    split; [right; exact Hf|]. split; [exact Hs|]. split.
    + rewrite filter_app, unflagged_no_final. reflexivity.
    + intros ->. reflexivity.
  - assert (Hc : completion_deliveries (late ++ [x]) = unflagged late ++ [(x, true)]).
    { rewrite <- mark_last_snoc. destruct late; reflexivity. }
    rewrite Hc, app_assoc, <- unflagged_app.
    destruct (flagged_last_shape (early ++ late) x) as [Hf Hs].
    split; [left; rewrite Hf, app_assoc; reflexivity|]. split; [exact Hs|]. split.
    + rewrite filter_app, unflagged_no_final. reflexivity.
    + intros Hnil. rewrite app_assoc in Hnil. by apply app_nil in Hnil as [_ ?].
Qed.

(** What a run from a freshly launched action shows: the polls that saw the
    future ready, and the trace. *)
Lemma run_observed (junk : StaticStorage) (li : FLatentActionInfo)
    (req : RequestType) (pSuccessOrFailure pStatus pResults : Z)
    (d : PartialResultsDelegateType) (w0 : World) (ss : list Step) :
  InternalMakeAwsGameKitThreadedAction junk li req pSuccessOrFailure pStatus pResults d
    = Ok w0 →
  ∃ w early late,
    run ss (Launch w0) = Ok w ∧
    (IsBound d = true → early ++ late = enqueued ss) ∧
    if polled_after_completion ss
    then ∃ e r,
           completion ss = Some (e, r) ∧ Registered w = false ∧
           ThreadedResult (TheAction w) = Future true ∧
           length (filter (fun p => SawReady p = true) (Polls w)) = 1%nat ∧
           trace w = map (invoke req) (unflagged early)
                     ++ map (invoke req)
                          (if IsBound d then completion_deliveries late else [])
                     ++ publish (settled e r (TheAction w0))
    else filter (fun p => SawReady p = true) (Polls w) = [] ∧
         trace w = map (invoke req) (unflagged early).
Proof.
  intros Hm.
  destruct (Launch_running _ _ _ _ _ _ _ _ Hm)
    as (_ & Hp0 & Hpend & _ & Hd & _ & Hreq & _ & _).
  destruct (run_launched _ _ _ _ _ _ _ _ ss Hm)
    as (w & Hrun & _ & _ & _ & parts & late & Hsplit & Hpolls).
  exists w, (concat parts), late. split; [exact Hrun|].
  rewrite Hp0, Hpend in *. cbn [app TheAction Launch] in *.
  change (PartialResultsDelegate (LaunchThreadedWork (TheAction w0)))
    with (PartialResultsDelegate (TheAction w0)) in *.
  rewrite Hd in *. split; [exact Hsplit|].
  destruct (idle_polls_observed (LaunchThreadedWork (TheAction w0)) parts) as [Hf Hc].
  change (InRequest (LaunchThreadedWork (TheAction w0)))
    with (InRequest (TheAction w0)) in Hc. rewrite Hreq in Hc.
  destruct (polled_after_completion ss).
  - destruct Hpolls as (e & r & Hcomp & Hreg & Hfut & Hpolls).
    exists e, r. repeat split; try done.
    + rewrite Hpolls, filter_app, Hf. reflexivity.
    + unfold trace. rewrite Hpolls, map_app, concat_app, Hc.
      cbn [map concat closing_poll Effects]. rewrite app_nil_r.
      change (InRequest (LaunchThreadedWork (TheAction w0)))
        with (InRequest (TheAction w0)).
      change (PartialResultsDelegate (LaunchThreadedWork (TheAction w0)))
        with (PartialResultsDelegate (TheAction w0)).
      rewrite Hreq, Hd. reflexivity.
  - destruct Hpolls as (Hreg & Hpolls). split.
    + rewrite Hpolls. exact Hf.
    + unfold trace. rewrite Hpolls. exact Hc.
Qed.

(** C3.  From construction and launch on, whatever the schedule: once the
    worker has returned and the host has ticked after that, exactly one
    poll has seen the future ready, the trace holds the stores of the
    worker's final result and status (and of the pin) and the call of
    [FinishAndTriggerIf] exactly once each, in that poll, and the action is
    off the host's list, so that nothing the schedule does afterwards adds
    a poll or an effect.  Before that, no poll has seen the future ready
    and nothing has been written or signalled. *)
Theorem final_result_observed_once (junk : StaticStorage) (li : FLatentActionInfo)
    (req : RequestType) (pSuccessOrFailure pStatus pResults : Z)
    (d : PartialResultsDelegateType) (w0 : World) (ss : list Step) :
  InternalMakeAwsGameKitThreadedAction junk li req pSuccessOrFailure pStatus pResults d
    = Ok w0 →
  ∃ w,
    run ss (Launch w0) = Ok w ∧
    if polled_after_completion ss
    then ∃ e r,
           completion ss = Some (e, r) ∧
           length (filter (fun p => SawReady p = true) (Polls w)) = 1%nat ∧
           output_effects (trace w)
             = [ StoreResults (OutResults (TheAction w0)) r;
                 StoreStatus (OutStatus (TheAction w0)) e;
                 StoreSuccessOrFailure (OutSuccessOrFailure (TheAction w0))
                   (if Status e =? GAMEKIT_SUCCESS then OnSuccess else OnFailure);
                 FinishAndTriggerIf true (ExecutionFunction li) (Linkage li)
                   (CallbackTarget li) ] ∧
           (∀ ss', run ss' w = Ok w)
    else filter (fun p => SawReady p = true) (Polls w) = [] ∧
         output_effects (trace w) = [].
Proof.
  intros Hm.
  destruct (Launch_running _ _ _ _ _ _ _ _ Hm) as (_ & _ & _ & _ & _ & Hli & _).
  destruct (run_observed _ _ _ _ _ _ _ _ ss Hm) as (w & early & late & Hrun & _ & Hobs).
  exists w. split; [exact Hrun|].
  destruct (polled_after_completion ss).
  - destruct Hobs as (e & r & Hcomp & Hreg & Hfut & Hone & Htr).
    exists e, r. repeat split; try done.
    + rewrite Htr, !output_effects_app, !output_effects_invoke, output_effects_publish.
      rewrite <- Hli. reflexivity.
    + intros ss'. by apply run_removed.
  - destruct Hobs as [Hnone Htr]. split; [exact Hnone|].
    rewrite Htr. apply output_effects_invoke.
Qed.

(** C2.  With a bound delegate, whatever the schedule: once the worker has
    returned and the host has ticked after that, the results handed to the
    delegate are the enqueued ones, all of them and in enqueue order
    (followed by one empty result when the completion poll found the queue
    empty), and the flag is [true] on the last invocation and [false] on
    all the others.  As long as that poll has not happened, the results
    handed over are a prefix of the enqueued ones, all with the flag
    [false]. *)
Theorem partial_results_fifo (junk : StaticStorage) (li : FLatentActionInfo)
    (req : RequestType) (pSuccessOrFailure pStatus pResults : Z)
    (w0 : World) (ss : list Step) :
  InternalMakeAwsGameKitThreadedAction junk li req pSuccessOrFailure pStatus pResults
    (Delegate true) = Ok w0 →
  ∃ w,
    run ss (Launch w0) = Ok w ∧
    let ds := deliveries (trace w) in
    if polled_after_completion ss
    then (map fst ds = enqueued ss ∨ map fst ds = enqueued ss ++ [DefaultConstructed]) ∧
         map snd ds = replicate (length ds - 1)%nat false ++ [true]
    else map fst ds `prefix_of` enqueued ss ∧
         map snd ds = replicate (length ds) false.
Proof.
  intros Hm.
  destruct (run_observed _ _ _ _ _ _ _ _ ss Hm) as (w & early & late & Hrun & Hsplit & Hobs).
  exists w. split; [exact Hrun|]. cbn zeta.
  specialize (Hsplit eq_refl). cbn [IsBound] in Hobs.
  destruct (polled_after_completion ss).
  - destruct Hobs as (e & r & _ & _ & _ & _ & Htr).
    rewrite Htr, !deliveries_app, !deliveries_invoke, deliveries_publish, app_nil_r.
    destruct (completion_deliveries_shape early late) as (Hfst & Hsnd & _).
    rewrite Hsplit in Hfst. split; [exact Hfst|exact Hsnd].
  - destruct Hobs as [_ Htr]. rewrite Htr, deliveries_invoke.
    destruct (unflagged_shape early) as [Hfst Hsnd]. split; [|exact Hsnd].
    rewrite Hfst, <- Hsplit. by apply prefix_app_r.
Qed.

(** C10.  With a bound delegate, whatever the schedule: once the worker has
    returned and the host has ticked after that, the delegate has been
    invoked with the final flag exactly once (and not at all before); when
    nothing was ever enqueued that invocation is the only one and carries a
    default-constructed result.  In the completion poll itself, the drain
    loop leaves [bInvokedWithFinal] unset exactly when it found the queue
    empty, and the dispatch then ends with one more invocation, with a
    default-constructed result and the flag [true]. *)
Theorem final_invocation_once (junk : StaticStorage) (li : FLatentActionInfo)
    (req : RequestType) (pSuccessOrFailure pStatus pResults : Z)
    (w0 : World) (ss : list Step) :
  InternalMakeAwsGameKitThreadedAction junk li req pSuccessOrFailure pStatus pResults
    (Delegate true) = Ok w0 →
  (∃ w,
     run ss (Launch w0) = Ok w ∧
     let ds := deliveries (trace w) in
     length (filter (fun d => d.2 = true) ds)
       = (if polled_after_completion ss then 1 else 0)%nat ∧
     (polled_after_completion ss = true → enqueued ss = [] →
        ds = [(DefaultConstructed, true)])) ∧
  (∀ (a : TAwsGameKitInternalThreadedAction) q,
     PartialResultsDelegate a = Delegate true →
     PartialResultsQueue (ThreadedState a) = Some q →
     ∃ evs bInvokedWithFinal,
       drain (InRequest a) true q false = (evs, bInvokedWithFinal) ∧
       (bInvokedWithFinal = false ↔ q = []) ∧
       DispatchPartialResults a true
         = Ok (drained a,
               if bInvokedWithFinal then evs
               else evs ++ [Execute (InRequest a) DefaultConstructed true])).
Proof.
  intros Hm. split.
  - destruct (run_observed _ _ _ _ _ _ _ _ ss Hm)
      as (w & early & late & Hrun & Hsplit & Hobs).
    exists w. split; [exact Hrun|]. cbn zeta.
    specialize (Hsplit eq_refl). cbn [IsBound] in Hobs.
    destruct (polled_after_completion ss).
    + destruct Hobs as (e & r & _ & _ & _ & _ & Htr).
      rewrite Htr, !deliveries_app, !deliveries_invoke, deliveries_publish, app_nil_r.
      destruct (completion_deliveries_shape early late) as (_ & _ & Hone & Hempty).
      split; [exact Hone|]. intros _ Hnil. apply Hempty. by rewrite Hsplit.
    + destruct Hobs as [_ Htr]. rewrite Htr, deliveries_invoke, unflagged_no_final.
      split; [reflexivity|discriminate].
  - intros a q Hd Hq. unfold DispatchPartialResults, drained. rewrite Hd, Hq.
    rewrite (check_true (IsSet (Some q)) eq_refl).
    cbn [IsBound negb andb mbind Checked_bind]. destruct q as [|x q].
    + exists [], false. cbn. done.
    + rewrite drain_complete by done. eexists _, true.
      split; [reflexivity|]. split; [split; discriminate|reflexivity].
Qed.

(** ** The claim about output references *)

(** C9.  Whenever [InternalAwsGameKitThreadedActionSafeOutputRef] returns,
    it returns the reference it was given if that lies in the persistent
    frame (at or above its start, below start plus size) and the static junk
    variable if not; it does return when no assertion fires, that is in a
    build without checks, or when the frame is sane and a reference outside
    it is within [NearbyStackAddressLimit] above the local [stackobj].  A
    store through the reference returned for a variable outside the frame
    leaves that variable as it was. *)
Theorem SafeOutputRef_frame_or_junk (junk stackobj : Z) (li : FLatentActionInfo)
    (OutRef : Z) :
  let frame := GetPersistentUberGraphFrame li in
  let size := GetStructureSize li in
  (DO_CHECK = true → frame ≠ 0 ∧ 0 < size < ExtremelyLargeBPFrameSize) →
  (DO_CHECK = true → ¬ (frame ≤ OutRef < frame + size) →
     size_t_of_ptrdiff (OutRef - stackobj) < NearbyStackAddressLimit) →
  (∀ r, InternalAwsGameKitThreadedActionSafeOutputRef junk stackobj li OutRef = Ok r →
        r = if bool_decide (frame ≤ OutRef < frame + size) then OutRef else junk) ∧
  (frame ≤ OutRef < frame + size →
     InternalAwsGameKitThreadedActionSafeOutputRef junk stackobj li OutRef = Ok OutRef) ∧
  (¬ (frame ≤ OutRef < frame + size) →
     InternalAwsGameKitThreadedActionSafeOutputRef junk stackobj li OutRef = Ok junk ∧
     (OutRef ≠ junk →
        ∀ (VariableType : Type) (cells : gmap Z VariableType) (v : VariableType),
          <[junk := v]> cells !! OutRef = cells !! OutRef)).
Proof.
  intros frame size Hframe Hstack.
  assert (Hc1 : check (negb (frame =? 0) && (0 <? size)
                       && (size <? ExtremelyLargeBPFrameSize)) = Ok tt).
  { unfold check. destruct DO_CHECK; [|reflexivity].
    destruct (Hframe eq_refl) as (Hnz & Hpos & Hlt).
    apply Z.eqb_neq in Hnz. apply Z.ltb_lt in Hpos, Hlt.
    rewrite Hnz, Hpos, Hlt. reflexivity. }
  assert (Hin : frame ≤ OutRef < frame + size →
                InternalAwsGameKitThreadedActionSafeOutputRef junk stackobj li OutRef
                = Ok OutRef).
  { intros [Hlo Hhi]. unfold InternalAwsGameKitThreadedActionSafeOutputRef.
    fold frame size. rewrite Hc1. cbn [mbind Checked_bind].
    apply Z.leb_le in Hlo. apply Z.ltb_lt in Hhi. rewrite Hlo, Hhi. reflexivity. }
  assert (Hout : ¬ (frame ≤ OutRef < frame + size) →
                 InternalAwsGameKitThreadedActionSafeOutputRef junk stackobj li OutRef
                 = Ok junk).
  { intros Hn. unfold InternalAwsGameKitThreadedActionSafeOutputRef.
    fold frame size. rewrite Hc1. cbn [mbind Checked_bind].
    assert (Hcmp : (frame <=? OutRef) && (OutRef <? frame + size) = false).
    { apply andb_false_iff.
      destruct (Z.leb_spec frame OutRef); [|by left].
      destruct (Z.ltb_spec OutRef (frame + size)); [|by right].
      exfalso. apply Hn. done. }
    rewrite Hcmp. unfold check. destruct DO_CHECK; [|reflexivity].
    specialize (Hstack eq_refl Hn). apply Z.ltb_lt in Hstack.
    rewrite Hstack. reflexivity. }
  split; [|split; [exact Hin|]].
  - intros r Hr. case_bool_decide as Hd.
    + rewrite (Hin Hd) in Hr. congruence.
    + rewrite (Hout Hd) in Hr. congruence.
  - intros Hn. split; [exact (Hout Hn)|].
    intros Hne VariableType cells v. by apply lookup_insert_ne.
Qed.

(* ================================================================== *)
(** * Part II, continued: further properties of the threaded action *)
(* ================================================================== *)

(** ** Output references and the constructor *)

Lemma SafeOutputRef_eval (junk stackobj : Z) (li : FLatentActionInfo) (OutRef : Z) :
  InternalAwsGameKitThreadedActionSafeOutputRef junk stackobj li OutRef
  = if DO_CHECK && negb (frame_sane li) then CheckFailed
    else if in_frame li OutRef then Ok OutRef
    else if DO_CHECK && negb (near_stack stackobj OutRef) then CheckFailed
    else Ok junk.
Proof.
  unfold InternalAwsGameKitThreadedActionSafeOutputRef, check.
  fold (frame_sane li) (in_frame li OutRef) (near_stack stackobj OutRef).
  destruct (DO_CHECK && negb (frame_sane li)); [reflexivity|].
  cbn [mbind Checked_bind]. destruct (in_frame li OutRef); [reflexivity|].
  destruct (DO_CHECK && negb (near_stack stackobj OutRef)); reflexivity.
Qed.

Lemma near_stack_window (stackobj addr : Z) :
  0 ≤ addr < 2 ^ 63 → 0 ≤ stackobj < 2 ^ 63 →
  near_stack stackobj addr = true
  ↔ stackobj ≤ addr < stackobj + NearbyStackAddressLimit.
Proof.
  intros Ha Hs. unfold near_stack, size_t_of_ptrdiff, NearbyStackAddressLimit.
  rewrite Z.ltb_lt. destruct (Z.le_gt_cases stackobj addr) as [Hle|Hgt].
  - rewrite Z.mod_small by lia. lia.
  - rewrite <- (Z.mod_add _ 1) by lia. rewrite Z.mod_small by lia. lia.
Qed.

(** X1.  In a build with checks and with a sane frame, a reference outside
    the persistent frame is accepted, and redirected to the junk variable,
    exactly when it lies at or above the local [stackobj] and less than
    [NearbyStackAddressLimit] bytes above it: the unsigned cast of the
    pointer difference rejects every address below [stackobj] as well as
    those far above it.  Addresses are taken below 2^63, so that the pointer
    difference is representable. *)
Theorem SafeOutputRef_stack_window (junk stackobj : Z) (li : FLatentActionInfo)
    (OutRef : Z) :
  DO_CHECK = true → frame_sane li = true → in_frame li OutRef = false →
  0 ≤ OutRef < 2 ^ 63 → 0 ≤ stackobj < 2 ^ 63 →
  (InternalAwsGameKitThreadedActionSafeOutputRef junk stackobj li OutRef = Ok junk
     ↔ stackobj ≤ OutRef < stackobj + NearbyStackAddressLimit) ∧
  (InternalAwsGameKitThreadedActionSafeOutputRef junk stackobj li OutRef = CheckFailed
     ↔ OutRef < stackobj ∨ stackobj + NearbyStackAddressLimit ≤ OutRef).
Proof.
  intros Hc Hsane Hin Ha Hs. rewrite SafeOutputRef_eval, Hc, Hsane, Hin.
  cbn [andb negb]. pose proof (near_stack_window stackobj OutRef Ha Hs) as Hw.
  destruct (near_stack stackobj OutRef); cbn [negb].
  - assert (Hr : stackobj ≤ OutRef < stackobj + NearbyStackAddressLimit) by by apply Hw.
    split; split; intros; try done. lia.
  - assert (Hr : ¬ (stackobj ≤ OutRef < stackobj + NearbyStackAddressLimit))
      by (intros ?%Hw; discriminate).
    split; split; intros; try done. lia.
Qed.

(** X2.  The constructor fails exactly in a build with checks in which the
    frame is not sane or one of the three output parameters lies outside the
    frame and not near the stack; the request and the delegate play no part
    in it. *)
Theorem Construct_fails_iff (junk : StaticStorage) (li : FLatentActionInfo)
    (req : RequestType) (pSuccessOrFailure pStatus pResults : Z)
    (d : PartialResultsDelegateType) :
  Construct junk li req pSuccessOrFailure pStatus pResults d = CheckFailed
  ↔ DO_CHECK = true ∧
    (frame_sane li = false ∨
     ∃ p, p ∈ [pSuccessOrFailure; pResults; pStatus] ∧
          in_frame li p = false ∧ near_stack (StackObj junk) p = false).
Proof.
  unfold Construct. rewrite !SafeOutputRef_eval.
  destruct DO_CHECK; cbn [andb].
  2:{ split; [|intros [? _]; discriminate].
      destruct (in_frame li pSuccessOrFailure), (in_frame li pResults),
        (in_frame li pStatus); discriminate. }
  destruct (frame_sane li); cbn [negb]; [|split; [intros _; by split; [|left]|done]].
  split.
  - intros Hf. split; [reflexivity|]. right.
    destruct (in_frame li pSuccessOrFailure) eqn:H1i;
      [|destruct (near_stack (StackObj junk) pSuccessOrFailure) eqn:H1n;
        [|exists pSuccessOrFailure; set_solver]];
    (destruct (in_frame li pResults) eqn:H2i;
      [|destruct (near_stack (StackObj junk) pResults) eqn:H2n;
        [|exists pResults; set_solver]]);
    (destruct (in_frame li pStatus) eqn:H3i;
      [|destruct (near_stack (StackObj junk) pStatus) eqn:H3n;
        [|exists pStatus; set_solver]]);
    discriminate.
  - intros [_ [?|(p & Hp & Hi & Hn)]]; [discriminate|].
    rewrite !elem_of_cons, elem_of_nil in Hp.
    destruct Hp as [->|[->|[->|[]]]].
    + rewrite Hi, Hn. reflexivity.
    + rewrite Hi, Hn.
      destruct (in_frame li pSuccessOrFailure);
        [|destruct (near_stack (StackObj junk) pSuccessOrFailure)]; reflexivity.
    + rewrite Hi, Hn.
      destruct (in_frame li pSuccessOrFailure);
        [|destruct (near_stack (StackObj junk) pSuccessOrFailure)];
        try reflexivity;
        (destruct (in_frame li pResults);
          [|destruct (near_stack (StackObj junk) pResults)]); reflexivity.
Qed.

(** The constructed action in closed form. *)
Lemma Construct_captured (junk : StaticStorage) (li : FLatentActionInfo)
    (req : RequestType) (pSuccessOrFailure pStatus pResults : Z)
    (d : PartialResultsDelegateType) (a : TAwsGameKitInternalThreadedAction) :
  Construct junk li req pSuccessOrFailure pStatus pResults d = Ok a →
  a = {| ThreadedState :=
           {| Err := DefaultOperationResult; Results := DefaultConstructed;
              PartialResultsQueue := if IsBound d then Some [] else None |};
         LatentInfo := li;
         InRequest := req;
         OutSuccessOrFailure := captured li (JunkSuccessOrFailure junk) pSuccessOrFailure;
         OutResults := captured li (JunkResults junk) pResults;
         OutStatus := captured li (JunkStatus junk) pStatus;
         PartialResultsDelegate := d;
         ThreadedResult := InvalidFuture |}.
Proof.
  unfold Construct, captured. rewrite !SafeOutputRef_eval.
  destruct (DO_CHECK && negb (frame_sane li)); [discriminate|].
  destruct (in_frame li pSuccessOrFailure);
    [|destruct (DO_CHECK && negb (near_stack (StackObj junk) pSuccessOrFailure));
      [discriminate|]];
  (destruct (in_frame li pResults);
    [|destruct (DO_CHECK && negb (near_stack (StackObj junk) pResults));
      [discriminate|]]);
  (destruct (in_frame li pStatus);
    [|destruct (DO_CHECK && negb (near_stack (StackObj junk) pStatus));
      [discriminate|]]);
  cbn; intros [= <-]; destruct d as [|[|]]; reflexivity.
Qed.

(** X3.  When [InternalMakeAwsGameKitThreadedAction] succeeds, the action
    it has handed to the latent action manager has never been polled, its
    output references are the caller's addresses where these lie in the
    persistent frame and the junk variable of the type where they do not,
    its shared state holds default values with a queue only for a bound
    delegate, and its future is not valid before [LaunchThreadedWork]. *)
Theorem InternalMake_registers (junk : StaticStorage) (li : FLatentActionInfo)
    (req : RequestType) (pSuccessOrFailure pStatus pResults : Z)
    (d : PartialResultsDelegateType) (w0 : World) :
  InternalMakeAwsGameKitThreadedAction junk li req pSuccessOrFailure pStatus pResults d
    = Ok w0 →
  w0 = {| Registered := true;
          TheAction :=
            {| ThreadedState :=
                 {| Err := DefaultOperationResult; Results := DefaultConstructed;
                    PartialResultsQueue := if IsBound d then Some [] else None |};
               LatentInfo := li;
               InRequest := req;
               OutSuccessOrFailure :=
                 if in_frame li pSuccessOrFailure then pSuccessOrFailure
                 else JunkSuccessOrFailure junk;
               OutResults :=
                 if in_frame li pResults then pResults else JunkResults junk;
               OutStatus :=
                 if in_frame li pStatus then pStatus else JunkStatus junk;
               PartialResultsDelegate := d;
               ThreadedResult := InvalidFuture |};
          Polls := [] |}.
Proof.
  unfold InternalMakeAwsGameKitThreadedAction. intros Hm.
  destruct (Construct junk li req pSuccessOrFailure pStatus pResults d) as [a| |] eqn:Hc;
    [|discriminate..].
  apply Construct_captured in Hc. cbn in Hm. injection Hm as <-.
  rewrite Hc. reflexivity.
Qed.

(** ** One poll, failing *)

(** X4.  A poll dies on an assertion exactly in a build with checks in
    which the future is invalid, or the delegate is bound while the queue
    was never allocated.  In a build without checks that last state is
    not caught: the poll goes on to dereference the unset queue, which is
    undefined.  In every other state the poll returns. *)
Theorem UpdateOperation_fails_iff (a : TAwsGameKitInternalThreadedAction) :
  (UpdateOperation a = CheckFailed
   ↔ DO_CHECK = true ∧
     (IsValid (ThreadedResult a) = false ∨
      (IsBound (PartialResultsDelegate a) = true ∧
       PartialResultsQueue (ThreadedState a) = None))) ∧
  (UpdateOperation a = Undefined
   ↔ DO_CHECK = false ∧
     IsBound (PartialResultsDelegate a) = true ∧
     PartialResultsQueue (ThreadedState a) = None).
Proof.
  unfold UpdateOperation, DispatchPartialResults, check.
  destruct a as [[e r q] li req o1 o2 o3 d f]. cbn [ThreadedResult ThreadedState
    PartialResultsDelegate PartialResultsQueue InRequest].
  destruct DO_CHECK, f as [|[|]], d as [|[|]], q as [q|];
    cbn [IsValid IsReady IsBound IsSet negb andb mbind Checked_bind];
    try (destruct (drain req _ q false) as [evs []]; cbn [negb andb mbind Checked_bind]);
    intuition congruence.
Qed.

(** ** What runs do to memory *)

Lemma replay_invoke (req : RequestType) (ds : list (ResultType * bool)) (m : Memory) :
  replay (map (invoke req) ds) m = m.
Proof. induction ds as [|[r b] ds IH]; [reflexivity|exact IH]. Qed.

Lemma made_captured (junk : StaticStorage) (li : FLatentActionInfo)
    (req : RequestType) (pSuccessOrFailure pStatus pResults : Z)
    (d : PartialResultsDelegateType) (w0 : World) :
  InternalMakeAwsGameKitThreadedAction junk li req pSuccessOrFailure pStatus pResults d
    = Ok w0 →
  OutSuccessOrFailure (TheAction w0)
    = captured li (JunkSuccessOrFailure junk) pSuccessOrFailure ∧
  OutResults (TheAction w0) = captured li (JunkResults junk) pResults ∧
  OutStatus (TheAction w0) = captured li (JunkStatus junk) pStatus.
Proof.
  unfold InternalMakeAwsGameKitThreadedAction. intros Hm.
  destruct (Construct junk li req pSuccessOrFailure pStatus pResults d) as [a| |] eqn:Hc;
    [|discriminate..].
  apply Construct_captured in Hc. cbn in Hm. injection Hm as <-.
  rewrite Hc. done.
Qed.

(** The memory after a run, whatever it was before. *)
Lemma run_memory (junk : StaticStorage) (li : FLatentActionInfo)
    (req : RequestType) (pSuccessOrFailure pStatus pResults : Z)
    (d : PartialResultsDelegateType) (w0 : World) (ss : list Step) :
  InternalMakeAwsGameKitThreadedAction junk li req pSuccessOrFailure pStatus pResults d
    = Ok w0 →
  ∃ w, run ss (Launch w0) = Ok w ∧
    if polled_after_completion ss
    then ∃ e r, completion ss = Some (e, r) ∧
           ∀ m, replay (trace w) m
                = {| PinCells := <[OutSuccessOrFailure (TheAction w0) := pin_of e]> (PinCells m);
                     ResultCells := <[OutResults (TheAction w0) := r]> (ResultCells m);
                     StatusCells := <[OutStatus (TheAction w0) := e]> (StatusCells m) |}
    else ∀ m, replay (trace w) m = m.
Proof.
  intros Hm.
  destruct (run_observed _ _ _ _ _ _ _ _ ss Hm) as (w & early & late & Hrun & _ & Hobs).
  exists w. split; [exact Hrun|].
  destruct (polled_after_completion ss).
  - destruct Hobs as (e & r & Hcomp & _ & _ & _ & Htr).
    exists e, r. split; [exact Hcomp|]. intros m.
    rewrite Htr, !replay_app, !replay_invoke. reflexivity.
  - destruct Hobs as [_ Htr]. intros m. rewrite Htr. apply replay_invoke.
Qed.

(** X5.  As long as the host has not polled after the worker's return, a
    run has stored nothing: whatever the worker pushed and however often the
    host polled, the memory is what it was. *)
Theorem outputs_untouched_before_completion (junk : StaticStorage)
    (li : FLatentActionInfo) (req : RequestType)
    (pSuccessOrFailure pStatus pResults : Z)
    (d : PartialResultsDelegateType) (w0 : World) (ss : list Step) :
  InternalMakeAwsGameKitThreadedAction junk li req pSuccessOrFailure pStatus pResults d
    = Ok w0 →
  polled_after_completion ss = false →
  ∃ w, run ss (Launch w0) = Ok w ∧ ∀ m, replay (trace w) m = m.
Proof.
  intros Hm Hp. destruct (run_memory _ _ _ _ _ _ _ _ ss Hm) as (w & Hrun & Hmem).
  rewrite Hp in Hmem. by exists w.
Qed.

(** X6.  Once the host has polled after the worker's return, the memory
    differs from the initial one in exactly three cells: the result cell at
    the result reference holds the result the worker returned, the status
    cell at the status reference its operation result, and the pin cell at
    the pin reference [OnSuccess] or [OnFailure] according to the status
    code.  Later steps of the schedule change nothing of this. *)
Theorem outputs_published (junk : StaticStorage)
    (li : FLatentActionInfo) (req : RequestType)
    (pSuccessOrFailure pStatus pResults : Z)
    (d : PartialResultsDelegateType) (w0 : World) (ss : list Step) :
  InternalMakeAwsGameKitThreadedAction junk li req pSuccessOrFailure pStatus pResults d
    = Ok w0 →
  polled_after_completion ss = true →
  ∃ w e r,
    run ss (Launch w0) = Ok w ∧ completion ss = Some (e, r) ∧
    ∀ m, replay (trace w) m
         = {| PinCells :=
                <[OutSuccessOrFailure (TheAction w0) :=
                    if Status e =? GAMEKIT_SUCCESS then OnSuccess else OnFailure]>
                  (PinCells m);
              ResultCells := <[OutResults (TheAction w0) := r]> (ResultCells m);
              StatusCells := <[OutStatus (TheAction w0) := e]> (StatusCells m) |}.
Proof.
  intros Hm Hp. destruct (run_memory _ _ _ _ _ _ _ _ ss Hm) as (w & Hrun & Hmem).
  rewrite Hp in Hmem. destruct Hmem as (e & r & Hcomp & Hmem).
  by exists w, e, r.
Qed.


(** ** Accounts of a run: the queue, the deliveries, the shared state *)

Lemma trace_snoc (reg reg' : bool) (a a' : TAwsGameKitInternalThreadedAction)
    (ps : list PollRecord) (p : PollRecord) :
  trace {| Registered := reg; TheAction := a; Polls := ps ++ [p] |}
  = trace {| Registered := reg'; TheAction := a'; Polls := ps |} ++ Effects p.
Proof.
  unfold trace. cbn [Polls]. rewrite map_app, concat_app. cbn. by rewrite app_nil_r.
Qed.

Lemma handed_early_backlog (ss : list Step) :
  ∀ q, handed_early q ss ++ backlog q ss = q ++ enqueued ss.
Proof.
  induction ss as [|[r|e r|] ss IH]; intros q; cbn.
  - by rewrite app_nil_r.
  - rewrite IH, <- app_assoc. reflexivity.
  - by rewrite app_nil_r.
  - rewrite <- app_assoc, IH. reflexivity.
Qed.

(** With a bound delegate: what has been delivered and what is queued. *)
Lemma run_account (ss : list Step) :
  ∀ w, running w → IsBound (PartialResultsDelegate (TheAction w)) = true →
  ∃ w', run ss w = Ok w' ∧
    deliveries (trace w')
      = deliveries (trace w) ++ unflagged (handed_early (pending (TheAction w)) ss)
        ++ (if polled_after_completion ss
            then completion_deliveries (backlog (pending (TheAction w)) ss) else []) ∧
    pending (TheAction w')
      = (if polled_after_completion ss then [] else backlog (pending (TheAction w)) ss).
Proof.
  induction ss as [|s ss IH]; intros w (Hr & Hf & Hq) Hb.
  - exists w. cbn. rewrite !app_nil_r. done.
  - destruct s as [r|e r|].
    + destruct (WorkerEnqueue_running r _ Hf Hq) as (Hw & Hf' & Hq' & Hp).
      destruct (IH {| Registered := Registered w;
                      TheAction := WorkerEnqueue r (TheAction w);
                      Polls := Polls w |}) as (w' & Hrun & Hd & Hpend).
      { done. }
      { cbn [TheAction]. unfold wiring in Hw. congruence. }
      exists w'. split; [exact Hrun|]. cbn [TheAction] in *.
      rewrite Hp, Hb in Hd, Hpend. done.
    + pose (w1 := {| Registered := Registered w;
                     TheAction := WorkerComplete e r (TheAction w);
                     Polls := Polls w |}).
      assert (Hw1 : WorkerComplete e r (TheAction w)
                    = with_future (Future true) (settled e r (TheAction w)))
        by (apply WorkerComplete_running; done).
      exists (if has_tick ss then closed w1 else w1). split.
      { cbn [run step mbind Checked_bind]. apply run_completed; subst w1; cbn; try done.
        - rewrite Hw1. reflexivity.
        - rewrite Hw1. exact Hq. }
      cbn [polled_after_completion handed_early backlog]. subst w1.
      destruct (has_tick ss).
      * unfold closed. cbn [TheAction Polls].
        rewrite (trace_snoc _ (Registered w) _ (WorkerComplete e r (TheAction w))).
        cbn [Effects]. rewrite !deliveries_app, deliveries_invoke, deliveries_publish.
        rewrite Hw1. cbn [PartialResultsDelegate with_future settled with_state].
        rewrite Hb, !app_nil_r. split; [reflexivity|].
        unfold pending, finalized, drained. cbn. rewrite Hb. cbn. rewrite Hb.
        reflexivity.
      * cbn [TheAction Polls]. rewrite app_nil_r. split; [reflexivity|].
        rewrite Hw1. reflexivity.
    + destruct (drained_running _ Hq) as (Hw & Hf' & Hq' & Hp).
      destruct (IH {| Registered := true;
                      TheAction := drained (TheAction w);
                      Polls := Polls w ++ [idle_poll (TheAction w) (pending (TheAction w))] |})
        as (w' & Hrun & Hd & Hpend).
      { repeat split; cbn; try done. rewrite Hf'. exact Hf. }
      { cbn [TheAction]. unfold wiring in Hw. congruence. }
      exists w'. split.
      { cbn [run step]. unfold TickLatentAction. rewrite Hr.
        rewrite UpdateOperation_spec by (rewrite ?Hf; done).
        rewrite Hf. cbn [IsReady mbind Checked_bind].
        rewrite bRemoveAction_invoke. exact Hrun. }
      cbn [TheAction polled_after_completion handed_early backlog] in *.
      rewrite Hp in Hd, Hpend.
      rewrite (trace_snoc _ (Registered w) _ (TheAction w)) in Hd.
      cbn [idle_poll Effects] in Hd. rewrite deliveries_app, deliveries_invoke in Hd.
      destruct w as [reg a ps]. cbn [TheAction] in *.
      split; [|exact Hpend].
      rewrite Hd, unflagged_app, <- !app_assoc. reflexivity.
Qed.

(** The shared state after a run; without a bound delegate, no delivery. *)
Lemma run_state (ss : list Step) :
  ∀ w, running w →
  ∃ w', run ss w = Ok w' ∧
    Err (ThreadedState (TheAction w'))
      = match completion ss with
        | Some (e, _) => e
        | None => Err (ThreadedState (TheAction w))
        end ∧
    Results (ThreadedState (TheAction w'))
      = match completion ss with
        | Some (_, r) => if polled_after_completion ss then MovedFrom r else r
        | None => Results (ThreadedState (TheAction w))
        end ∧
    ThreadedResult (TheAction w')
      = Future (match completion ss with Some _ => true | None => false end) ∧
    Registered w' = negb (polled_after_completion ss) ∧
    (IsBound (PartialResultsDelegate (TheAction w)) = false →
       deliveries (trace w') = deliveries (trace w)).
Proof.
  induction ss as [|s ss IH]; intros w (Hr & Hf & Hq).
  - exists w. cbn. done.
  - destruct s as [r|e r|].
    + destruct (WorkerEnqueue_running r _ Hf Hq) as (Hw & Hf' & Hq' & Hp).
      destruct (IH {| Registered := Registered w;
                      TheAction := WorkerEnqueue r (TheAction w);
                      Polls := Polls w |}) as (w' & Hrun & He & Hres & Hfut & Hreg & Hd);
        [done|].
      exists w'. split; [exact Hrun|]. cbn [TheAction completion polled_after_completion] in *.
      assert (Hsame : Err (ThreadedState (WorkerEnqueue r (TheAction w)))
                      = Err (ThreadedState (TheAction w)) ∧
                      Results (ThreadedState (WorkerEnqueue r (TheAction w)))
                      = Results (ThreadedState (TheAction w))).
      { unfold WorkerEnqueue. rewrite Hf.
        destruct (PartialResultsQueue (ThreadedState (TheAction w))); done. }
      destruct Hsame as [HeE HrE]. rewrite HeE in He. rewrite HrE in Hres.
      repeat split; try done. intros Hb. apply Hd.
      unfold wiring in Hw. congruence.
    + pose (w1 := {| Registered := Registered w;
                     TheAction := WorkerComplete e r (TheAction w);
                     Polls := Polls w |}).
      assert (Hw1 : WorkerComplete e r (TheAction w)
                    = with_future (Future true) (settled e r (TheAction w)))
        by (apply WorkerComplete_running; done).
      exists (if has_tick ss then closed w1 else w1). split.
      { cbn [run step mbind Checked_bind]. apply run_completed; subst w1; cbn; try done.
        - rewrite Hw1. reflexivity.
        - rewrite Hw1. exact Hq. }
      cbn [polled_after_completion completion]. subst w1.
      destruct (has_tick ss).
      * unfold closed. cbn [TheAction Polls Registered negb].
        destruct (finalized_fields (WorkerComplete e r (TheAction w))) as (_ & -> & _).
        rewrite (trace_snoc _ (Registered w) _ (WorkerComplete e r (TheAction w))).
        cbn [Effects]. rewrite !deliveries_app, deliveries_invoke, deliveries_publish.
        rewrite Hw1. unfold finalized, drained.
        cbn [PartialResultsDelegate with_future settled with_state ThreadedState
             ThreadedResult].
        destruct (IsBound (PartialResultsDelegate (TheAction w)));
          (split; [reflexivity|]); (split; [reflexivity|]);
          (split; [reflexivity|]); (split; [reflexivity|]); intros Hb;
          [discriminate|].
        rewrite !app_nil_r. destruct w; reflexivity.
      * cbn [TheAction Polls Registered negb]. rewrite Hw1. repeat split; done.
    + destruct (drained_running _ Hq) as (Hw & Hf' & Hq' & Hp).
      destruct (drained_fields (TheAction w)) as (_ & _ & _ & _ & _ & _ & _ & HeE & HrE).
      destruct (IH {| Registered := true;
                      TheAction := drained (TheAction w);
                      Polls := Polls w ++ [idle_poll (TheAction w) (pending (TheAction w))] |})
        as (w' & Hrun & He & Hres & Hfut & Hreg & Hd).
      { repeat split; cbn; try done. rewrite Hf'. exact Hf. }
      exists w'. split.
      { cbn [run step]. unfold TickLatentAction. rewrite Hr.
        rewrite UpdateOperation_spec by (rewrite ?Hf; done).
        rewrite Hf. cbn [IsReady mbind Checked_bind].
        rewrite bRemoveAction_invoke. exact Hrun. }
      cbn [TheAction completion polled_after_completion] in *.
      rewrite HeE in He. rewrite HrE in Hres. repeat split; try done.
      intros Hb. rewrite Hd by (unfold wiring in Hw; congruence).
      rewrite (trace_snoc _ (Registered w) _ (TheAction w)).
      cbn [idle_poll Effects]. unfold pending. rewrite Hb. cbn.
      rewrite app_nil_r. destruct w; reflexivity.
Qed.

(** X8.  With a bound delegate nothing is lost, duplicated or reordered
    while the action is pending: as long as the host has not polled after
    the worker's return, the results handed to the delegate so far, followed
    by those still in the queue, are the results enqueued, in order. *)
Theorem queue_conservation (junk : StaticStorage) (li : FLatentActionInfo)
    (req : RequestType) (pSuccessOrFailure pStatus pResults : Z)
    (w0 : World) (ss : list Step) :
  InternalMakeAwsGameKitThreadedAction junk li req pSuccessOrFailure pStatus pResults
    (Delegate true) = Ok w0 →
  polled_after_completion ss = false →
  ∃ w q,
    run ss (Launch w0) = Ok w ∧
    PartialResultsQueue (ThreadedState (TheAction w)) = Some q ∧
    map fst (deliveries (trace w)) ++ q = enqueued ss.
Proof.
  intros Hm Hp.
  destruct (Launch_running _ _ _ _ _ _ _ _ Hm)
    as (Hrunning & Hp0 & Hpend & Hwl & Hd & _).
  assert (Hb : IsBound (PartialResultsDelegate (TheAction (Launch w0))) = true).
  { unfold wiring in Hwl. replace (PartialResultsDelegate (TheAction (Launch w0)))
      with (PartialResultsDelegate (TheAction w0)) by congruence.
    rewrite Hd. reflexivity. }
  destruct (run_account ss _ Hrunning Hb) as (w & Hrun & Hdel & Hq).
  destruct (run_launched _ _ _ _ _ _ _ _ ss Hm) as (w' & Hrun' & Hw & _ & Hmatch & _).
  rewrite Hrun in Hrun'. injection Hrun' as <-.
  assert (Hbw : IsBound (PartialResultsDelegate (TheAction w)) = true)
    by (unfold wiring in Hw; replace (PartialResultsDelegate (TheAction w))
          with (PartialResultsDelegate (TheAction (Launch w0))) by congruence; done).
  unfold queue_matches_delegate in Hmatch. rewrite Hbw in Hmatch.
  destruct (PartialResultsQueue (ThreadedState (TheAction w))) as [q|] eqn:Hqw;
    [|discriminate].
  exists w, q. split; [exact Hrun|]. split; [exact Hqw|].
  rewrite Hp, Hpend in *. unfold pending in Hq. rewrite Hbw, Hqw in Hq. cbn in Hq.
  unfold trace in Hdel at 2. rewrite Hp0 in Hdel. cbn in Hdel.
  rewrite Hdel, app_nil_r. destruct (unflagged_shape (handed_early [] ss)) as [-> _].
  subst q. apply (handed_early_backlog ss []).
Qed.

(** X9.  With a bound delegate, once the host has polled after the worker's
    return: the results handed to the delegate are the enqueued ones in
    order, followed by one default-constructed result exactly when the
    completion poll found the queue empty, that is when nothing was pushed
    after the last poll before the worker returned; and the queue is left
    empty. *)
Theorem empty_final_delivery_iff (junk : StaticStorage) (li : FLatentActionInfo)
    (req : RequestType) (pSuccessOrFailure pStatus pResults : Z)
    (w0 : World) (ss : list Step) :
  InternalMakeAwsGameKitThreadedAction junk li req pSuccessOrFailure pStatus pResults
    (Delegate true) = Ok w0 →
  polled_after_completion ss = true →
  ∃ w,
    run ss (Launch w0) = Ok w ∧
    PartialResultsQueue (ThreadedState (TheAction w)) = Some [] ∧
    map fst (deliveries (trace w))
      = enqueued ss ++ (match backlog [] ss with
                        | [] => [DefaultConstructed]
                        | _ => []
                        end).
Proof.
  intros Hm Hp.
  destruct (Launch_running _ _ _ _ _ _ _ _ Hm)
    as (Hrunning & Hp0 & Hpend & Hwl & Hd & _).
  assert (Hb : IsBound (PartialResultsDelegate (TheAction (Launch w0))) = true).
  { unfold wiring in Hwl. replace (PartialResultsDelegate (TheAction (Launch w0)))
      with (PartialResultsDelegate (TheAction w0)) by congruence.
    rewrite Hd. reflexivity. }
  destruct (run_account ss _ Hrunning Hb) as (w & Hrun & Hdel & Hq).
  destruct (run_launched _ _ _ _ _ _ _ _ ss Hm) as (w' & Hrun' & Hw & _ & Hmatch & _).
  rewrite Hrun in Hrun'. injection Hrun' as <-.
  assert (Hbw : IsBound (PartialResultsDelegate (TheAction w)) = true)
    by (unfold wiring in Hw; replace (PartialResultsDelegate (TheAction w))
          with (PartialResultsDelegate (TheAction (Launch w0))) by congruence; done).
  unfold queue_matches_delegate in Hmatch. rewrite Hbw in Hmatch.
  destruct (PartialResultsQueue (ThreadedState (TheAction w))) as [q|] eqn:Hqw;
    [|discriminate].
  rewrite Hp, Hpend in *. unfold pending in Hq. rewrite Hbw, Hqw in Hq. cbn in Hq.
  subst q. exists w. split; [exact Hrun|]. split; [exact Hqw|].
  unfold trace in Hdel at 2. rewrite Hp0 in Hdel. cbn in Hdel. rewrite Hdel.
  pose proof (handed_early_backlog ss []) as Hsplit. cbn in Hsplit.
  rewrite map_app. destruct (unflagged_shape (handed_early [] ss)) as [-> _].
  destruct (backlog [] ss) as [|x late _] using rev_ind.
  - rewrite app_nil_r in Hsplit. rewrite Hsplit. reflexivity.
  - assert (Hc : completion_deliveries (late ++ [x]) = unflagged late ++ [(x, true)]).
    { rewrite <- mark_last_snoc. destruct late; reflexivity. }
    rewrite Hc. destruct (flagged_last_shape late x) as [-> _].
    rewrite Hsplit. destruct late; cbn; by rewrite app_nil_r.
Qed.

(** X10.  Every invocation of the delegate carries the request the action
    was constructed with. *)
Theorem delegate_gets_the_request (junk : StaticStorage) (li : FLatentActionInfo)
    (req : RequestType) (pSuccessOrFailure pStatus pResults : Z)
    (d : PartialResultsDelegateType) (w0 : World) (ss : list Step) :
  InternalMakeAwsGameKitThreadedAction junk li req pSuccessOrFailure pStatus pResults d
    = Ok w0 →
  ∃ w, run ss (Launch w0) = Ok w ∧
    requests (trace w) = replicate (length (deliveries (trace w))) req.
Proof.
  intros Hm.
  destruct (run_observed _ _ _ _ _ _ _ _ ss Hm) as (w & early & late & Hrun & _ & Hobs).
  exists w. split; [exact Hrun|].
  assert (Hinv : ∀ ds evs, requests evs = replicate (length (deliveries evs)) req →
            requests (map (invoke req) ds ++ evs)
            = replicate (length (deliveries (map (invoke req) ds ++ evs))) req).
  { intros ds evs Hevs. induction ds as [|[r b] ds IH]; [exact Hevs|].
    cbn. rewrite IH. reflexivity. }
  destruct (polled_after_completion ss).
  - destruct Hobs as (e & r & _ & _ & _ & _ & ->). do 2 apply Hinv. reflexivity.
  - destruct Hobs as [_ ->]. rewrite <- (app_nil_r (map _ _)). apply Hinv. reflexivity.
Qed.

(** X11.  The overload without a result: when the local [Result] lies
    outside the persistent frame, the action's result reference is the junk
    variable, there is no queue, and in no run is the delegate invoked or
    the cell of the dead local written. *)
Theorem NoResult_remaps_stack_output (junk : StaticStorage) (Result : Z)
    (li : FLatentActionInfo) (req : RequestType) (pSuccessOrFailure pStatus : Z)
    (w0 : World) (ss : list Step) :
  InternalMakeAwsGameKitThreadedAction_NoResult junk Result li req
    pSuccessOrFailure pStatus = Ok w0 →
  in_frame li Result = false →
  OutResults (TheAction w0) = JunkResults junk ∧
  PartialResultsQueue (ThreadedState (TheAction w0)) = None ∧
  ∃ w, run ss (Launch w0) = Ok w ∧
    deliveries (trace w) = [] ∧
    (Result ≠ JunkResults junk →
       ∀ m, ResultCells (replay (trace w) m) !! Result = ResultCells m !! Result).
Proof.
  unfold InternalMakeAwsGameKitThreadedAction_NoResult. intros Hm Hout.
  destruct (made_captured _ _ _ _ _ _ _ _ Hm) as (_ & Hr & _).
  unfold captured in Hr. rewrite Hout in Hr.
  destruct (Launch_running _ _ _ _ _ _ _ _ Hm)
    as (Hrunning & Hp0 & _ & Hwl & Hd & _ & _ & Hq0 & _).
  split; [exact Hr|]. split.
  { unfold queue_matches_delegate in Hq0. rewrite Hd in Hq0.
    destruct (PartialResultsQueue (ThreadedState (TheAction w0))); [discriminate|done]. }
  destruct (run_state ss _ Hrunning) as (w & Hrun & _ & _ & _ & _ & Hdel).
  exists w. split; [exact Hrun|]. split.
  - rewrite Hdel.
    + unfold trace. rewrite Hp0. reflexivity.
    + unfold wiring in Hwl. replace (PartialResultsDelegate (TheAction (Launch w0)))
        with (PartialResultsDelegate (TheAction w0)) by congruence.
      rewrite Hd. reflexivity.
  - intros Hne m.
    destruct (run_memory _ _ _ _ _ _ _ _ ss Hm) as (w' & Hrun' & Hmem).
    rewrite Hrun in Hrun'. injection Hrun' as <-.
    destruct (polled_after_completion ss).
    + destruct Hmem as (e & r & _ & ->). cbn. rewrite Hr.
      by apply lookup_insert_ne.
    + rewrite Hmem. reflexivity.
Qed.

(** X12.  The shared state a caller holds through the state pointer: until
    the worker returns it keeps its default status and result; from the
    return on it holds the worker's status, and the worker's result until
    the completion poll moves it out; the future is ready from the return
    on, and the action stays registered until that poll. *)
Theorem shared_state_after_run (junk : StaticStorage) (li : FLatentActionInfo)
    (req : RequestType) (pSuccessOrFailure pStatus pResults : Z)
    (d : PartialResultsDelegateType) (w0 : World) (ss : list Step) :
  InternalMakeAwsGameKitThreadedAction junk li req pSuccessOrFailure pStatus pResults d
    = Ok w0 →
  ∃ w, run ss (Launch w0) = Ok w ∧
    Err (ThreadedState (TheAction w))
      = match completion ss with
        | Some (e, _) => e
        | None => DefaultOperationResult
        end ∧
    Results (ThreadedState (TheAction w))
      = match completion ss with
        | Some (_, r) => if polled_after_completion ss then MovedFrom r else r
        | None => DefaultConstructed
        end ∧
    IsReady (ThreadedResult (TheAction w))
      = (match completion ss with Some _ => true | None => false end) ∧
    Registered w = negb (polled_after_completion ss).
Proof.
  intros Hm.
  destruct (Launch_running _ _ _ _ _ _ _ _ Hm) as (Hrunning & _).
  destruct (run_state ss _ Hrunning) as (w & Hrun & He & Hres & Hfut & Hreg & _).
  exists w. split; [exact Hrun|].
  unfold InternalMakeAwsGameKitThreadedAction in Hm.
  destruct (Construct junk li req pSuccessOrFailure pStatus pResults d) as [a| |] eqn:Hc;
    [|discriminate..].
  apply Construct_captured in Hc. cbn in Hm. injection Hm as <-. subst a.
  cbn in He, Hres. rewrite He, Hres, Hfut. done.
Qed.

(** ** Polling again *)

(** X14.  [UpdateOperation] keeps no record of having published.  Polled
    once more after the completion poll, it publishes again: the delegate,
    if bound, is invoked with a default-constructed result and the final
    flag, the result stored is the moved-from one, the status and the pin
    are stored as before, and [FinishAndTriggerIf] is called again.  Only
    the removal of the action by the host prevents this. *)
Theorem UpdateOperation_repoll_republishes (a : TAwsGameKitInternalThreadedAction) :
  IsReady (ThreadedResult a) = true →
  queue_matches_delegate a →
  ∃ a1 evs1 a2,
    UpdateOperation a = Ok (a1, evs1) ∧
    UpdateOperation a1
      = Ok (a2,
            (if IsBound (PartialResultsDelegate a)
             then [Execute (InRequest a) DefaultConstructed true] else [])
            ++ [ StoreResults (OutResults a) (MovedFrom (Results (ThreadedState a)));
                 StoreStatus (OutStatus a) (Err (ThreadedState a));
                 StoreSuccessOrFailure (OutSuccessOrFailure a)
                   (if Status (Err (ThreadedState a)) =? GAMEKIT_SUCCESS
                    then OnSuccess else OnFailure);
                 FinishAndTriggerIf true (ExecutionFunction (LatentInfo a))
                   (Linkage (LatentInfo a)) (CallbackTarget (LatentInfo a)) ]).
Proof.
  intros Hr Hq.
  assert (Hv : IsValid (ThreadedResult a) = true)
    by (destruct (ThreadedResult a); [discriminate|reflexivity]).
  destruct (finalized_fields a) as (Hw & Hf & Hqf).
  eexists _, _, _. split; [rewrite UpdateOperation_spec, Hr by done; reflexivity|].
  rewrite UpdateOperation_spec by (rewrite ?Hf; auto).
  rewrite Hf, Hr. f_equal. f_equal.
  unfold finalized, drained, publish, pending, pin_of.
  destruct (IsBound (PartialResultsDelegate a)) eqn:Hb; cbn; rewrite ?Hb; reflexivity.
Qed.

(** X15.  Partial results are not delivered twice: a poll before completion
    that directly follows another finds nothing, invokes nothing and leaves
    the action as it is. *)
Theorem partial_results_not_redelivered (a : TAwsGameKitInternalThreadedAction) :
  IsValid (ThreadedResult a) = true →
  IsReady (ThreadedResult a) = false →
  queue_matches_delegate a →
  ∃ a1 evs1,
    UpdateOperation a = Ok (a1, evs1) ∧
    deliveries evs1 = map (fun r => (r, false)) (pending a) ∧
    UpdateOperation a1 = Ok (a1, []).
Proof.
  intros Hv Hr Hq.
  destruct (drained_running _ Hq) as (_ & Hf & Hq' & Hp).
  eexists _, _. split; [rewrite UpdateOperation_spec, Hr by done; reflexivity|].
  split; [apply deliveries_invoke|].
  rewrite UpdateOperation_spec by (rewrite ?Hf; done).
  rewrite Hf, Hr, Hp. f_equal. f_equal.
  unfold drained. destruct (IsBound (PartialResultsDelegate a)) eqn:Hb; cbn; rewrite ?Hb;
    reflexivity.
Qed.

End ThreadedAction.

(* ================================================================== *)
(** * Part III: properties of the session-manager wrapper *)
(* ================================================================== *)

(** C6.  [getLibraryFilename] is ["aws-gamekit-authentication"] on Windows,
    ["libaws-gamekit-authentication"] on Mac and the empty string on every
    other platform; in no case does the name hold a dot, so it carries no
    file extension. *)
Theorem getLibraryFilename_per_platform (p : Platform) :
  getLibraryFilename p
    = match p with
      | Windows => "aws-gamekit-authentication"
      | Mac => "libaws-gamekit-authentication"
      | Linux | IOS | Android => ""
      end ∧
  has_dot (getLibraryFilename p) = false.
Proof. destruct p; split; reflexivity. Qed.

(* ================================================================== *)
(** * Part IV: the statements on the sample configuration *)
(* ================================================================== *)

#[local] Existing Instance sample_build.
#[local] Existing Instance sample_operation_results.
#[local] Existing Instance sample_vm.
#[local] Existing Instance sample_result_model.

(** A run of the model: two partial results, the first delivered by a poll
    before completion, the second by the completion poll, which then
    publishes the outputs; the ignored result pin was given as a stack
    address and is redirected to the junk variable. *)
Example sample_run :
  (w0 ← InternalMakeAwsGameKitThreadedAction sample_storage sample_info 5
          4100 4104 7000040 (Delegate true);
   w ← run [Enqueue [1]; Tick; Enqueue [2]; Complete (0, "done"%string) [9]; Tick; Tick]
          (Launch w0);
   Ok (trace w))
  = Ok [ Execute 5 [1] false; Execute 5 [2] true;
         StoreResults 9000016 [9]; StoreStatus 4104 (0, "done"%string);
         StoreSuccessOrFailure 4100 OnSuccess;
         FinishAndTriggerIf true "ExecuteUbergraph_Login" 3 512 ].
Proof. reflexivity. Qed.

(** With nothing enqueued the delegate still hears of the completion. *)
Example sample_run_empty :
  (w0 ← InternalMakeAwsGameKitThreadedAction sample_storage sample_info 5
          4100 4104 7000040 (Delegate true);
   w ← run [Tick; Complete (7, "denied"%string) [9]; Tick] (Launch w0);
   Ok (trace w))
  = Ok [ Execute 5 [] true;
         StoreResults 9000016 [9]; StoreStatus 4104 (7, "denied"%string);
         StoreSuccessOrFailure 4100 OnFailure;
         FinishAndTriggerIf true "ExecuteUbergraph_Login" 3 512 ].
Proof. reflexivity. Qed.

(** The once-only delivery rests on the host: [UpdateOperation] keeps no
    record of having published, and polled again after the completion poll
    it would publish again, this time the moved-from result. *)
Remark UpdateOperation_keeps_no_latch :
  let a := {| ThreadedState := {| Err := (0, "done"%string); Results := [9];
                                  PartialResultsQueue := None |};
              LatentInfo := sample_info; InRequest := 5;
              OutSuccessOrFailure := 4100; OutResults := 4112; OutStatus := 4104;
              PartialResultsDelegate := FNoopStruct;
              ThreadedResult := Future true |} in
  ('(a1, evs1) ← UpdateOperation a;
   '(a2, evs2) ← UpdateOperation a1;
   Ok (evs1 ++ evs2))
  = Ok [ StoreResults 4112 [9]; StoreStatus 4104 (0, "done"%string);
         StoreSuccessOrFailure 4100 OnSuccess;
         FinishAndTriggerIf true "ExecuteUbergraph_Login" 3 512;
         StoreResults 4112 []; StoreStatus 4104 (0, "done"%string);
         StoreSuccessOrFailure 4100 OnSuccess;
         FinishAndTriggerIf true "ExecuteUbergraph_Login" 3 512 ].
Proof. reflexivity. Qed.

(** The statements with hypotheses, applied. *)

Lemma UpdateOperation_poll_witness :
  let a := {| ThreadedState := {| Err := (0, "done"%string); Results := [9];
                                  PartialResultsQueue := Some [[1]; [2]] |};
              LatentInfo := sample_info; InRequest := 5;
              OutSuccessOrFailure := 4100; OutResults := 4112; OutStatus := 4104;
              PartialResultsDelegate := Delegate true;
              ThreadedResult := Future true |} in
  IsValid (ThreadedResult a) = true ∧
  queue_matches_delegate a ∧
  ∃ dispatched,
    DispatchPartialResults a true = Ok (drained a, dispatched) ∧
    output_effects dispatched = [] ∧
    deliveries dispatched = [([1], false); ([2], true)] ∧
    UpdateOperation a
      = Ok (finalized a,
            dispatched ++
            [ StoreResults 4112 [9]; StoreStatus 4104 (0, "done"%string);
              StoreSuccessOrFailure 4100 OnSuccess;
              FinishAndTriggerIf true "ExecuteUbergraph_Login" 3 512 ]).
Proof.
  intros a. split; [reflexivity|]. split; [reflexivity|].
  exact (proj2 (UpdateOperation_poll a eq_refl eq_refl) eq_refl).
Defined.

Lemma UpdateOperation_branch_witness :
  let a := {| ThreadedState := {| Err := (7, "denied"%string); Results := [];
                                  PartialResultsQueue := None |};
              LatentInfo := sample_info; InRequest := 5;
              OutSuccessOrFailure := 4100; OutResults := 4112; OutStatus := 4104;
              PartialResultsDelegate := FNoopStruct;
              ThreadedResult := Future true |} in
  let m := {| PinCells := ∅; ResultCells := ∅; StatusCells := ∅ |} in
  IsReady (ThreadedResult a) = true ∧
  queue_matches_delegate a ∧
  ∃ a' evs pin,
    UpdateOperation a = Ok (a', evs) ∧
    StatusCells (replay evs m) !! 4104 = Some (7, "denied"%string) ∧
    PinCells (replay evs m) !! 4100 = Some pin ∧
    (pin = OnSuccess ↔ 7 = 0) ∧
    (pin = OnFailure ↔ 7 ≠ 0).
Proof.
  intros a m. split; [reflexivity|]. split; [reflexivity|].
  exact (UpdateOperation_branch a m eq_refl eq_refl).
Defined.

Lemma queue_allocated_iff_bound_witness :
  ∃ w0,
    InternalMakeAwsGameKitThreadedAction sample_storage sample_info 5
      4100 4104 7000040 (Delegate false) = Ok w0 ∧
    (IsSet (PartialResultsQueue (ThreadedState (TheAction w0))) = true
       ↔ Delegate false = Delegate true) ∧
    ∀ ss, ∃ w,
      run ss (Launch w0) = Ok w ∧
      PartialResultsDelegate (TheAction w) = Delegate false ∧
      (IsSet (PartialResultsQueue (ThreadedState (TheAction w))) = true
         ↔ Delegate false = Delegate true).
Proof.
  eexists. split; [reflexivity|].
  apply (queue_allocated_iff_bound sample_storage sample_info 5 4100 4104 7000040).
  reflexivity.
Defined.

Lemma UpdateOperation_check_valid_witness :
  ∃ w0,
    InternalMakeAwsGameKitThreadedAction sample_storage sample_info 5
      4100 4104 7000040 FNoopStruct = Ok w0 ∧
    (∀ a : TAwsGameKitInternalThreadedAction (RequestType := Z),
       DO_CHECK = true → IsValid (ThreadedResult a) = false →
       UpdateOperation a = CheckFailed) ∧
    (DO_CHECK = true → run [Tick] w0 = CheckFailed) ∧
    ∀ ss, ∃ w,
      run ss (Launch w0) = Ok w ∧
      IsValid (ThreadedResult (TheAction w)) = true ∧
      check (IsValid (ThreadedResult (TheAction w))) = Ok tt.
Proof.
  eexists. split; [reflexivity|].
  apply (UpdateOperation_check_valid sample_storage sample_info 5 4100 4104 7000040
           FNoopStruct).
  reflexivity.
Defined.

Lemma final_result_observed_once_witness :
  let ss := [Enqueue [1]; Tick; Complete (0, "done"%string) [9]; Tick; Tick] in
  ∃ w0,
    InternalMakeAwsGameKitThreadedAction sample_storage sample_info 5
      4100 4104 7000040 (Delegate true) = Ok w0 ∧
    ∃ w,
      run ss (Launch w0) = Ok w ∧
      ∃ e r,
        completion ss = Some (e, r) ∧
        length (filter (fun p => SawReady p = true) (Polls w)) = 1%nat ∧
        output_effects (trace w)
          = [ StoreResults (OutResults (TheAction w0)) r;
              StoreStatus (OutStatus (TheAction w0)) e;
              StoreSuccessOrFailure (OutSuccessOrFailure (TheAction w0))
                (if Status e =? GAMEKIT_SUCCESS then OnSuccess else OnFailure);
              FinishAndTriggerIf true "ExecuteUbergraph_Login" 3 512 ] ∧
        (∀ ss', run ss' w = Ok w).
Proof.
  intros ss. eexists. split; [reflexivity|].
  apply (final_result_observed_once sample_storage sample_info 5 4100 4104 7000040
           (Delegate true) _ ss).
  reflexivity.
Defined.

Lemma partial_results_fifo_witness :
  let ss := [Enqueue [1]; Tick; Enqueue [2]; Enqueue [3];
             Complete (0, "done"%string) [9]; Tick] in
  ∃ w0,
    InternalMakeAwsGameKitThreadedAction sample_storage sample_info 5
      4100 4104 7000040 (Delegate true) = Ok w0 ∧
    ∃ w,
      run ss (Launch w0) = Ok w ∧
      (map fst (deliveries (trace w)) = [[1]; [2]; [3]] ∨
       map fst (deliveries (trace w)) = [[1]; [2]; [3]] ++ [[]]) ∧
      map snd (deliveries (trace w))
        = replicate (length (deliveries (trace w)) - 1)%nat false ++ [true].
Proof.
  intros ss. eexists. split; [reflexivity|].
  exact (partial_results_fifo sample_storage sample_info 5 4100 4104 7000040 _ ss
           eq_refl).
Defined.

Lemma final_invocation_once_witness :
  let ss := [Tick; Complete (0, "done"%string) [9]; Tick] in
  ∃ w0,
    InternalMakeAwsGameKitThreadedAction sample_storage sample_info 5
      4100 4104 7000040 (Delegate true) = Ok w0 ∧
    ∃ w,
      run ss (Launch w0) = Ok w ∧
      length (filter (fun d => d.2 = true) (deliveries (trace w))) = 1%nat ∧
      (true = true → enqueued ss = [] → deliveries (trace w) = [([], true)]).
Proof.
  intros ss. eexists. split; [reflexivity|].
  exact (proj1 (final_invocation_once sample_storage sample_info 5 4100 4104 7000040
                  _ ss eq_refl)).
Defined.

Lemma SafeOutputRef_frame_or_junk_witness :
  (DO_CHECK = true → 4096 ≠ 0 ∧ 0 < 256 < ExtremelyLargeBPFrameSize) ∧
  (DO_CHECK = true → ¬ (4096 ≤ 7000040 < 4096 + 256) →
     size_t_of_ptrdiff (7000040 - 7000000) < NearbyStackAddressLimit) ∧
  InternalAwsGameKitThreadedActionSafeOutputRef 9000016 7000000 sample_info 4100
    = Ok 4100 ∧
  InternalAwsGameKitThreadedActionSafeOutputRef 9000016 7000000 sample_info 7000040
    = Ok 9000016.
Proof.
  assert (Hframe : DO_CHECK = true → 4096 ≠ 0 ∧ 0 < 256 < ExtremelyLargeBPFrameSize)
    by (intros _; unfold ExtremelyLargeBPFrameSize; lia).
  assert (Hstack : ∀ OutRef, OutRef = 7000040 ∨ OutRef = 4100 →
            DO_CHECK = true → ¬ (4096 ≤ OutRef < 4096 + 256) →
            size_t_of_ptrdiff (OutRef - 7000000) < NearbyStackAddressLimit)
    by (intros OutRef [->| ->] _ Hn; [reflexivity|lia]).
  split; [exact Hframe|]. split; [apply Hstack; by left|]. split.
  - apply (SafeOutputRef_frame_or_junk (H := sample_build) (H1 := sample_vm)
             9000016 7000000 sample_info 4100 Hframe (Hstack 4100 (or_intror eq_refl))).
    cbn. lia.
  - apply (SafeOutputRef_frame_or_junk (H := sample_build) (H1 := sample_vm)
             9000016 7000000 sample_info 7000040 Hframe
             (Hstack 7000040 (or_introl eq_refl))).
    cbn. lia.
Defined.

(** The further statements with hypotheses, applied. *)

Lemma SafeOutputRef_stack_window_witness :
  DO_CHECK = true ∧ frame_sane sample_info = true ∧
  in_frame sample_info 7000040 = false ∧
  0 ≤ 7000040 < 2 ^ 63 ∧ 0 ≤ 7000000 < 2 ^ 63 ∧
  (InternalAwsGameKitThreadedActionSafeOutputRef 9000016 7000000 sample_info 7000040
     = Ok 9000016
     ↔ 7000000 ≤ 7000040 < 7000000 + NearbyStackAddressLimit) ∧
  (InternalAwsGameKitThreadedActionSafeOutputRef 9000016 7000000 sample_info 7000040
     = CheckFailed
     ↔ 7000040 < 7000000 ∨ 7000000 + NearbyStackAddressLimit ≤ 7000040).
Proof.
  assert (Ha : 0 ≤ 7000040 < 2 ^ 63) by lia.
  assert (Hs : 0 ≤ 7000000 < 2 ^ 63) by lia.
  split; [reflexivity|]. split; [reflexivity|]. split; [reflexivity|].
  split; [exact Ha|]. split; [exact Hs|].
  exact (SafeOutputRef_stack_window (H := sample_build) (H1 := sample_vm)
           9000016 7000000 sample_info 7000040 eq_refl eq_refl eq_refl Ha Hs).
Defined.

Lemma InternalMake_registers_witness :
  ∃ w0,
    InternalMakeAwsGameKitThreadedAction sample_storage sample_info 5
      4100 4104 7000040 (Delegate true) = Ok w0 ∧
    w0 = {| Registered := true;
            TheAction :=
              {| ThreadedState :=
                   {| Err := (0, EmptyString); Results := [];
                      PartialResultsQueue := Some [] |};
                 LatentInfo := sample_info; InRequest := 5;
                 OutSuccessOrFailure := 4100; OutResults := 9000016;
                 OutStatus := 4104;
                 PartialResultsDelegate := Delegate true;
                 ThreadedResult := InvalidFuture |};
            Polls := [] |}.
Proof.
  eexists. split; [reflexivity|].
  exact (InternalMake_registers sample_storage sample_info 5 4100 4104 7000040
           (Delegate true) _ eq_refl).
Defined.

Lemma outputs_untouched_before_completion_witness :
  let ss := [Enqueue [1]; Tick; Complete (0, "done"%string) [9]; Enqueue [2]] in
  ∃ w0,
    InternalMakeAwsGameKitThreadedAction sample_storage sample_info 5
      4100 4104 7000040 (Delegate true) = Ok w0 ∧
    polled_after_completion ss = false ∧
    ∃ w, run ss (Launch w0) = Ok w ∧ ∀ m, replay (trace w) m = m.
Proof.
  intros ss. eexists. split; [reflexivity|]. split; [reflexivity|].
  exact (outputs_untouched_before_completion sample_storage sample_info 5
           4100 4104 7000040 (Delegate true) _ ss eq_refl eq_refl).
Defined.

Lemma outputs_published_witness :
  let ss := [Enqueue [1]; Tick; Complete (7, "denied"%string) [9]; Tick; Tick] in
  ∃ w0,
    InternalMakeAwsGameKitThreadedAction sample_storage sample_info 5
      4100 4104 7000040 (Delegate true) = Ok w0 ∧
    polled_after_completion ss = true ∧
    ∃ w e r,
      run ss (Launch w0) = Ok w ∧ completion ss = Some (e, r) ∧
      ∀ m, replay (trace w) m
           = {| PinCells :=
                  <[OutSuccessOrFailure (TheAction w0) :=
                      if Status e =? GAMEKIT_SUCCESS then OnSuccess else OnFailure]>
                    (PinCells m);
                ResultCells := <[OutResults (TheAction w0) := r]> (ResultCells m);
                StatusCells := <[OutStatus (TheAction w0) := e]> (StatusCells m) |}.
Proof.
  intros ss. eexists. split; [reflexivity|]. split; [reflexivity|].
  exact (outputs_published sample_storage sample_info 5
           4100 4104 7000040 (Delegate true) _ ss eq_refl eq_refl).
Defined.


Lemma queue_conservation_witness :
  let ss := [Enqueue [1]; Enqueue [2]; Tick; Enqueue [3]] in
  ∃ w0,
    InternalMakeAwsGameKitThreadedAction sample_storage sample_info 5
      4100 4104 7000040 (Delegate true) = Ok w0 ∧
    polled_after_completion ss = false ∧
    ∃ w q,
      run ss (Launch w0) = Ok w ∧
      PartialResultsQueue (ThreadedState (TheAction w)) = Some q ∧
      map fst (deliveries (trace w)) ++ q = [[1]; [2]; [3]].
Proof.
  intros ss. eexists. split; [reflexivity|]. split; [reflexivity|].
  exact (queue_conservation sample_storage sample_info 5
           4100 4104 7000040 _ ss eq_refl eq_refl).
Defined.

Lemma empty_final_delivery_iff_witness :
  let ss := [Enqueue [1]; Tick; Complete (0, "done"%string) [9]; Tick] in
  ∃ w0,
    InternalMakeAwsGameKitThreadedAction sample_storage sample_info 5
      4100 4104 7000040 (Delegate true) = Ok w0 ∧
    polled_after_completion ss = true ∧
    ∃ w,
      run ss (Launch w0) = Ok w ∧
      PartialResultsQueue (ThreadedState (TheAction w)) = Some [] ∧
      map fst (deliveries (trace w)) = [[1]] ++ [[]].
Proof.
  intros ss. eexists. split; [reflexivity|]. split; [reflexivity|].
  exact (empty_final_delivery_iff sample_storage sample_info 5
           4100 4104 7000040 _ ss eq_refl eq_refl).
Defined.

Lemma delegate_gets_the_request_witness :
  let ss := [Enqueue [1]; Tick; Complete (0, "done"%string) [9]; Tick] in
  ∃ w0,
    InternalMakeAwsGameKitThreadedAction sample_storage sample_info 5
      4100 4104 7000040 (Delegate true) = Ok w0 ∧
    ∃ w, run ss (Launch w0) = Ok w ∧
      requests (trace w) = replicate (length (deliveries (trace w))) 5.
Proof.
  intros ss. eexists. split; [reflexivity|].
  exact (delegate_gets_the_request sample_storage sample_info 5
           4100 4104 7000040 (Delegate true) _ ss eq_refl).
Defined.

Lemma NoResult_remaps_stack_output_witness :
  let ss := [Tick; Complete (0, "done"%string) []; Tick] in
  ∃ w0,
    InternalMakeAwsGameKitThreadedAction_NoResult sample_storage 7000200 sample_info 5
      4100 4104 = Ok w0 ∧
    in_frame sample_info 7000200 = false ∧
    OutResults (TheAction w0) = 9000016 ∧
    PartialResultsQueue (ThreadedState (TheAction w0)) = None ∧
    ∃ w, run ss (Launch w0) = Ok w ∧
      deliveries (trace w) = [] ∧
      (7000200 ≠ 9000016 →
         ∀ m, ResultCells (replay (trace w) m) !! 7000200 = ResultCells m !! 7000200).
Proof.
  intros ss. eexists. split; [reflexivity|]. split; [reflexivity|].
  exact (NoResult_remaps_stack_output sample_storage 7000200 sample_info 5
           4100 4104 _ ss eq_refl eq_refl).
Defined.

Lemma shared_state_after_run_witness :
  let ss := [Enqueue [1]; Complete (7, "denied"%string) [9]; Tick] in
  ∃ w0,
    InternalMakeAwsGameKitThreadedAction sample_storage sample_info 5
      4100 4104 7000040 (Delegate true) = Ok w0 ∧
    ∃ w, run ss (Launch w0) = Ok w ∧
      Err (ThreadedState (TheAction w)) = (7, "denied"%string) ∧
      Results (ThreadedState (TheAction w)) = MovedFrom [9] ∧
      IsReady (ThreadedResult (TheAction w)) = true ∧
      Registered w = false.
Proof.
  intros ss. eexists. split; [reflexivity|].
  exact (shared_state_after_run sample_storage sample_info 5
           4100 4104 7000040 (Delegate true) _ ss eq_refl).
Defined.

Lemma UpdateOperation_repoll_republishes_witness :
  let a := {| ThreadedState := {| Err := (0, "done"%string); Results := [9];
                                  PartialResultsQueue := Some [[1]] |};
              LatentInfo := sample_info; InRequest := 5;
              OutSuccessOrFailure := 4100; OutResults := 4112; OutStatus := 4104;
              PartialResultsDelegate := Delegate true;
              ThreadedResult := Future true |} in
  IsReady (ThreadedResult a) = true ∧
  queue_matches_delegate a ∧
  ∃ a1 evs1 a2,
    UpdateOperation a = Ok (a1, evs1) ∧
    UpdateOperation a1
      = Ok (a2,
            [ Execute 5 [] true;
              StoreResults 4112 []; StoreStatus 4104 (0, "done"%string);
              StoreSuccessOrFailure 4100 OnSuccess;
              FinishAndTriggerIf true "ExecuteUbergraph_Login" 3 512 ]).
Proof.
  intros a. split; [reflexivity|]. split; [reflexivity|].
  exact (UpdateOperation_repoll_republishes a eq_refl eq_refl).
Defined.

Lemma partial_results_not_redelivered_witness :
  let a := {| ThreadedState := {| Err := (0, EmptyString); Results := [];
                                  PartialResultsQueue := Some [[1]; [2]] |};
              LatentInfo := sample_info; InRequest := 5;
              OutSuccessOrFailure := 4100; OutResults := 4112; OutStatus := 4104;
              PartialResultsDelegate := Delegate true;
              ThreadedResult := Future false |} in
  IsValid (ThreadedResult a) = true ∧
  IsReady (ThreadedResult a) = false ∧
  queue_matches_delegate a ∧
  ∃ a1 evs1,
    UpdateOperation a = Ok (a1, evs1) ∧
    deliveries evs1 = [([1], false); ([2], false)] ∧
    UpdateOperation a1 = Ok (a1, []).
Proof.
  intros a. split; [reflexivity|]. split; [reflexivity|]. split; [reflexivity|].
  exact (partial_results_not_redelivered a eq_refl eq_refl eq_refl).
Defined.
